(** * cfg2: dependency analyzer ([src/main.py], class [DependencyAnalyzer])

    A shallow embedding of the graph construction of [main.py]:
    [get_package_info], [get_direct_dependencies], [build_dependency_graph]
    and [run_analysis], followed by the properties of the traversal.

    Python dictionaries keep insertion order, and the program depends on it
    (first entry of [versions], discovery order of the graph), so a dictionary
    is an association list in insertion order.  The instance attribute
    [self.dependency_graph] is one shared mutable object: it is threaded
    through every call as explicit state.  The dictionary returned by
    [get_direct_dependencies] is stored in the graph and iterated, but never
    written to afterwards, so storing its value is enough.  Exceptions are
    an explicit outcome.  Python integers are [Z].

    Not modelled: [load_config], console output other than the cycle
    report, the interpreter's recursion limit, and a file or a registry that
    changes while the analysis runs (the world is fixed for a run). *)

From Stdlib Require Import String List ZArith Bool Lia.
Import ListNotations.
Open Scope string_scope.
Open Scope list_scope.
Open Scope Z_scope.

Set Implicit Arguments.

(** ** Ordered dictionaries *)

Module Dict.

Definition dict (V : Type) : Type := list (string * V).

(** [d.get(k)] *)
Fixpoint get {V} (k : string) (d : dict V) : option V :=
  match d with
  | [] => None
  | (k', v) :: r => if String.eqb k k' then Some v else get k r
  end.

(** [k in d] *)
Definition mem {V} (k : string) (d : dict V) : bool :=
  match get k d with Some _ => true | None => false end.

(** [d[k] = v]: an existing key keeps its position, a new one goes last. *)
Fixpoint set {V} (k : string) (v : V) (d : dict V) : dict V :=
  match d with
  | [] => [(k, v)]
  | (k', v') :: r =>
      if String.eqb k k' then (k', v) :: r else (k', v') :: set k v r
  end.

(** [list(d.keys())] *)
Definition keys {V} (d : dict V) : list string := map fst d.

End Dict.

Abbreviation dict := Dict.dict.

(** ** Data model *)

(** [dependencies]: dependency name -> version specifier, in file order. *)
Definition DependencySpecifierMapping : Type := dict string.

(** The metadata object of one package (one version).  Only the
    ["dependencies"] key is ever read, through [.get('dependencies', {})];
    [None] models an object without that key.  The remaining keys are kept
    uninterpreted. *)
Record PackageMetadata : Type := {
  dependencies : option DependencySpecifierMapping;
  other_keys : list (string * string)
}.

(** The literal [{}] of [test_data.get(package_name, {})]. *)
Definition empty_metadata : PackageMetadata :=
  {| dependencies := None; other_keys := [] |}.

(** The body of a registry answer, [response.json()]; [None] models a body
    without the ["versions"] key. *)
Record PackageData : Type := {
  versions : option (dict PackageMetadata)
}.

Record Response : Type := {
  status_code : Z;
  json : PackageData
}.

(** [self.config], as [load_config] returns it. *)
Record Config : Type := {
  package_name : string;
  repository_url : string;
  mode : string;
  version : string;
  output_file : string;
  max_depth : Z
}.

(** What the program reads from outside: the JSON file behind a path
    ([None]: no such file) and the answer of [requests.get] for a URL. *)
Record World : Type := {
  read_json : string -> option (dict PackageMetadata);
  http_get : string -> Response
}.

Inductive exception : Type :=
| FileNotFoundError (msg : string)
| ValueError (msg : string)
| KeyError (key : string).

Inductive outcome (A : Type) : Type :=
| Returned (a : A)
| Raised (e : exception).
Arguments Returned {A} a.
Arguments Raised {A} e.

(** Observable events of a run, oldest first: every invocation of the
    Package Info Source, and every printed cycle report with its chain. *)
Inductive event : Type :=
| EFetch (name ver : string)
| ECycle (chain : list string).

(** The analyzer object: [self.dependency_graph], and the events so far. *)
Record State : Type := {
  dependency_graph : dict DependencySpecifierMapping;
  trace : list event
}.

(** ** A state and exception monad, with fuel for the recursion

    [None] means that the recursion budget of the model ran out; it is not a
    behaviour of the program. *)

Definition M (A : Type) : Type := State -> option (State * outcome A).

Definition ret {A} (a : A) : M A := fun st => Some (st, Returned a).

Definition bind {A B} (m : M A) (k : A -> M B) : M B :=
  fun st =>
    match m st with
    | None => None
    | Some (st', Raised e) => Some (st', Raised e)
    | Some (st', Returned a) => k a st'
    end.

Notation "x <- m ;; k" := (bind m (fun x => k))
  (at level 61, m at next level, right associativity).
Notation "m ;;; k" := (bind m (fun _ => k))
  (at level 61, right associativity).

Definition out_of_fuel {A} : M A := fun _ => None.

Definition lift {A} (o : outcome A) : M A := fun st => Some (st, o).

Definition with_event (st : State) (e : event) : State :=
  {| dependency_graph := dependency_graph st; trace := trace st ++ [e] |}.

Definition with_entry (st : State) (k : string)
    (v : DependencySpecifierMapping) : State :=
  {| dependency_graph := Dict.set k v (dependency_graph st);
     trace := trace st |}.

Definition emit (e : event) : M unit :=
  fun st => Some (with_event st e, Returned tt).

(** [self.dependency_graph[k] = v] *)
Definition graph_set (k : string) (v : DependencySpecifierMapping) : M unit :=
  fun st => Some (with_entry st k v, Returned tt).

(** [k in self.dependency_graph] *)
Definition graph_mem (k : string) : M bool :=
  fun st => Some (st, Returned (Dict.mem k (dependency_graph st))).

(** [for x in l: f(x)] *)
Fixpoint for_each {A} (f : A -> M unit) (l : list A) : M unit :=
  match l with
  | [] => ret tt
  | x :: r => f x ;;; for_each f r
  end.

(** [name in path] on a list of strings. *)
Definition in_list (x : string) (l : list string) : bool :=
  existsb (String.eqb x) l.

(** Truth value of a string: only the empty string is false. *)
Definition truthy (s : string) : bool :=
  match s with EmptyString => false | _ => true end.

(** [package_info.get('dependencies', {})] *)
Definition deps_of (package_info : PackageMetadata)
  : DependencySpecifierMapping :=
  match dependencies package_info with
  | Some deps => deps
  | None => []
  end.

(** The body of the loop of lines 94-96, for a given recursive call. *)
Definition unless_known (call : string -> string -> M unit)
    (dep : string * string) : M unit :=
  let (dep_name, dep_version) := dep in
  known <- graph_mem dep_name ;;
  if known then ret tt else call dep_name dep_version.

(** [d[k]] *)
Definition subscript {V} (d : dict V) (k : string) : outcome V :=
  match Dict.get k d with
  | Some v => Returned v
  | None => Raised (KeyError k)
  end.

(** ** The analyzer *)

Section DependencyAnalyzer.

Variable config : Config.
Variable world : World.

Definition no_test_file : string := "Тестовый файл не найден".

Definition no_package_info (package_name : string) : string :=
  ("Не удалось получить информацию о пакете " ++ package_name)%string.

(** [get_package_info], lines 35-59. *)
Definition get_package_info (package_name version : string)
  : outcome PackageMetadata :=
  if String.eqb (mode config) "test" then
    match read_json world (repository_url config) with
    | Some test_data =>
        Returned (match Dict.get package_name test_data with
                  | Some info => info
                  | None => empty_metadata
                  end)
    | None => Raised (FileNotFoundError no_test_file)
    end
  else
    let url := (repository_url config ++ "/" ++ package_name)%string in
    let response := http_get world url in
    let failure := Raised (ValueError (no_package_info package_name)) in
    if status_code response =? 200 then
      let package_data := json response in
      let versions :=
        match versions package_data with Some v => v | None => [] end in
      if Dict.mem version versions then subscript versions version
      else
        let first_version :=
          match versions with
          | [] => None
          | _ :: _ => hd_error (Dict.keys versions)
          end in
        match first_version with
        | Some fv => if truthy fv then subscript versions fv else failure
        | None => failure
        end
    else failure.

(** [get_direct_dependencies], lines 61-71.  The only caller of the
    Package Info Source; the invocation is recorded in the trace. *)
Definition get_direct_dependencies (package_name version : string)
  : M DependencySpecifierMapping :=
  emit (EFetch package_name version) ;;;
  package_info <- lift (get_package_info package_name version) ;;
  ret (deps_of package_info).

(** [build_dependency_graph], lines 73-96.  [fuel] bounds the number of
    nested activations, the one being entered included. *)
Fixpoint build_dependency_graph (fuel : nat) (package_name version : string)
    (depth : Z) (path : list string) {struct fuel} : M unit :=
  match fuel with
  | O => out_of_fuel
  | S fuel' =>
      if depth >? max_depth config then ret tt
      else if in_list package_name path then
        emit (ECycle (path ++ [package_name]))
      else
        let current_path := path ++ [package_name] in
        dependencies <- get_direct_dependencies package_name version ;;
        graph_set package_name dependencies ;;;
        for_each
          (unless_known
             (fun dep_name dep_version =>
                build_dependency_graph fuel' dep_name dep_version
                  (depth + 1) current_path))
          dependencies
  end.

(** The same traversal with the cycle check of lines 83-85 taken out; it
    only serves to show what the depth check alone guarantees. *)
Fixpoint build_without_cycle_guard (fuel : nat)
    (package_name version : string) (depth : Z) (path : list string)
    {struct fuel} : M unit :=
  match fuel with
  | O => out_of_fuel
  | S fuel' =>
      if depth >? max_depth config then ret tt
      else
        let current_path := path ++ [package_name] in
        dependencies <- get_direct_dependencies package_name version ;;
        graph_set package_name dependencies ;;;
        for_each
          (unless_known
             (fun dep_name dep_version =>
                build_without_cycle_guard fuel' dep_name dep_version
                  (depth + 1) current_path))
          dependencies
  end.

(** [run_analysis], lines 98-111: default arguments [depth=0], [path=None]. *)
Definition run_analysis (fuel : nat) : M unit :=
  build_dependency_graph fuel (package_name config) (version config) 0 [].

End DependencyAnalyzer.

(** [DependencyAnalyzer.__init__]: [self.dependency_graph = {}]. *)
Definition new_analyzer : State :=
  {| dependency_graph := []; trace := [] |}.

(** [main], without the final printing: a fresh analyzer runs the analysis;
    the exception, if any, is the one [main] catches and prints. *)
Definition main (config : Config) (world : World) (fuel : nat)
  : option (State * outcome unit) :=
  run_analysis config world fuel new_analyzer.

(** The text printed after the prefix of a cycle report:
    [' -> '.join(path + [package_name])]. *)
Definition cycle_message (chain : list string) : string :=
  String.concat " -> " chain.

(** Names the Package Info Source was invoked for, in order. *)
Fixpoint fetched (t : list event) : list string :=
  match t with
  | [] => []
  | EFetch n _ :: r => n :: fetched r
  | ECycle _ :: r => fetched r
  end.

(** Chains of the cycle reports printed, in order. *)
Fixpoint cycle_reports (t : list event) : list (list string) :=
  match t with
  | [] => []
  | EFetch _ _ :: r => cycle_reports r
  | ECycle c :: r => c :: cycle_reports r
  end.

(** ** The traversal as a relation

    [Build n v d p st st' o]: the call [build_dependency_graph(n, v, d, p)]
    entered in state [st] ends in state [st'] with outcome [o].  [Loop] is
    the [for] loop of lines 94-96 over the remaining items.  One rule per
    path through the code. *)

Section Semantics.

Variable config : Config.
Variable world : World.

Inductive Build : string -> string -> Z -> list string ->
                  State -> State -> outcome unit -> Prop :=
| Build_too_deep n v d p st :
    max_depth config < d ->
    Build n v d p st st (Returned tt)
| Build_cycle n v d p st :
    d <= max_depth config ->
    In n p ->
    Build n v d p st (with_event st (ECycle (p ++ [n]))) (Returned tt)
| Build_fetch_raises n v d p st e :
    d <= max_depth config ->
    ~ In n p ->
    get_package_info config world n v = Raised e ->
    Build n v d p st (with_event st (EFetch n v)) (Raised e)
| Build_visit n v d p st info st' o :
    d <= max_depth config ->
    ~ In n p ->
    get_package_info config world n v = Returned info ->
    Loop (d + 1) (p ++ [n]) (deps_of info)
         (with_entry (with_event st (EFetch n v)) n (deps_of info)) st' o ->
    Build n v d p st st' o
with Loop : Z -> list string -> DependencySpecifierMapping ->
            State -> State -> outcome unit -> Prop :=
| Loop_done d p st :
    Loop d p [] st st (Returned tt)
| Loop_known d p dn dv r st st' o :
    Dict.mem dn (dependency_graph st) = true ->
    Loop d p r st st' o ->
    Loop d p ((dn, dv) :: r) st st' o
| Loop_raises d p dn dv r st st' e :
    Dict.mem dn (dependency_graph st) = false ->
    Build dn dv d p st st' (Raised e) ->
    Loop d p ((dn, dv) :: r) st st' (Raised e)
| Loop_next d p dn dv r st st1 st' o :
    Dict.mem dn (dependency_graph st) = false ->
    Build dn dv d p st st1 (Returned tt) ->
    Loop d p r st1 st' o ->
    Loop d p ((dn, dv) :: r) st st' o.

Scheme Build_mut := Minimality for Build Sort Prop
  with Loop_mut := Minimality for Loop Sort Prop.
Combined Scheme Build_Loop_ind from Build_mut, Loop_mut.

End Semantics.

(** Activations that suffice for a call entered at [depth]: the call itself
    and one more per level down to [max_depth + 1]. *)
Definition frames (config : Config) (depth : Z) : nat :=
  S (Z.to_nat (max_depth config + 1 - depth)).

(** A fetch that answered, for the error analysis of a trace. *)
Definition answered (config : Config) (world : World) (e : event) : Prop :=
  match e with
  | EFetch n v => exists info, get_package_info config world n v = Returned info
  | ECycle _ => True
  end.

(** ** Properties of a transition from [st] to [st'] with outcome [o] *)

(** The invocations made on the way are pairwise distinct, none is for a
    name that was a key at the start, and the keys grew by exactly the
    invoked names, in order; when an exception ended the run, all but the
    last invoked name were recorded. *)
Definition fresh_growth (st st' : State) (o : outcome unit) : Prop :=
  exists new,
    trace st' = trace st ++ new /\
    NoDup (fetched new) /\
    (forall x, In x (fetched new) ->
               ~ In x (Dict.keys (dependency_graph st))) /\
    match o with
    | Returned _ =>
        Dict.keys (dependency_graph st') =
        Dict.keys (dependency_graph st) ++ fetched new
    | Raised _ =>
        exists ns x,
          fetched new = ns ++ [x] /\
          Dict.keys (dependency_graph st') =
          Dict.keys (dependency_graph st) ++ ns
    end.

(** An exception is the one of the last invocation, and every invocation
    before it answered; without exception every invocation answered. *)
Definition error_last (config : Config) (world : World)
    (st st' : State) (o : outcome unit) : Prop :=
  exists new,
    trace st' = trace st ++ new /\
    match o with
    | Returned _ => Forall (answered config world) new
    | Raised e =>
        exists pre n v,
          new = pre ++ [EFetch n v] /\
          Forall (answered config world) pre /\
          get_package_info config world n v = Raised e
    end.

(** Every entry of the graph is an old one or what the source answered. *)
Definition justified (config : Config) (world : World)
    (st st' : State) : Prop :=
  forall k ds,
    Dict.get k (dependency_graph st') = Some ds ->
    Dict.get k (dependency_graph st) = Some ds \/
    exists v info,
      get_package_info config world k v = Returned info /\ ds = deps_of info.

(** No cycle report was printed, and no key was lost. *)
Definition quiet (st st' : State) : Prop :=
  cycle_reports (trace st') = cycle_reports (trace st) /\
  incl (Dict.keys (dependency_graph st)) (Dict.keys (dependency_graph st')).

(** The URL of line 47. *)
Definition request_url (config : Config) (package_name : string) : string :=
  (repository_url config ++ "/" ++ package_name)%string.

(** The registry has no usable answer for a package: a status other than
    200, or a body whose [versions] is empty or absent. *)
Definition unresolvable (config : Config) (world : World)
    (package_name : string) : Prop :=
  let response := http_get world (request_url config package_name) in
  status_code response <> 200 \/
  versions (json response) = None \/
  versions (json response) = Some [].

(** ** Concrete registries and configurations *)

Definition metadata (deps : DependencySpecifierMapping) : PackageMetadata :=
  {| dependencies := Some deps; other_keys := [] |}.

Definition not_found : Response :=
  {| status_code := 404; json := {| versions := None |} |}.

(** A world whose only file is the fixture at [path]; no registry answers. *)
Definition fixture_world (path : string) (test_data : dict PackageMetadata)
  : World :=
  {| read_json := fun p => if String.eqb p path then Some test_data else None;
     http_get := fun _ => not_found |}.

(** A world without files, whose registry answers the listed URLs. *)
Definition registry_world (answers : dict Response) : World :=
  {| read_json := fun _ => None;
     http_get := fun url =>
       match Dict.get url answers with Some r => r | None => not_found end |}.

Definition test_config (root ver : string) (depth : Z) : Config :=
  {| package_name := root; repository_url := "test_repo.json";
     mode := "test"; version := ver; output_file := "graph.txt";
     max_depth := depth |}.

Definition live_config (root ver : string) (depth : Z) : Config :=
  {| package_name := root; repository_url := "https://registry.npmjs.org";
     mode := "live"; version := ver; output_file := "graph.txt";
     max_depth := depth |}.

(** A -> B, C;  B -> nothing;  C -> B. *)
Definition diamond_fixture : dict PackageMetadata :=
  [ ("A", metadata [("B", "1.0"); ("C", "1.0")]);
    ("B", metadata []);
    ("C", metadata [("B", "1.0")]) ].

(** A -> B -> C -> D. *)
Definition chain_fixture : dict PackageMetadata :=
  [ ("A", metadata [("B", "1.0")]);
    ("B", metadata [("C", "1.0")]);
    ("C", metadata [("D", "1.0")]);
    ("D", metadata []) ].

(** A -> B -> A. *)
Definition cyclic_fixture : dict PackageMetadata :=
  [ ("A", metadata [("B", "1.0")]);
    ("B", metadata [("A", "1.0")]) ].

(** A registry answer whose only version key is the empty string. *)
Definition blank_version_answer : Response :=
  {| status_code := 200;
     json := {| versions := Some [("", metadata [("B", "1.0")])] |} |}.

Definition two_versions_answer : Response :=
  {| status_code := 200;
     json := {| versions := Some [ ("2.0.0", metadata [("B", "^2.0")]);
                                   ("1.0.0", metadata [("C", "^1.0")]) ] |} |}.

Definition no_versions_answer : Response :=
  {| status_code := 200; json := {| versions := Some [] |} |}.

(** The chain A -> B -> C -> D as registry answers, one version each. *)
Definition one_version (deps : DependencySpecifierMapping) : Response :=
  {| status_code := 200;
     json := {| versions := Some [("1.0", metadata deps)] |} |}.

Definition chain_registry : dict Response :=
  [ ("https://registry.npmjs.org/A", one_version [("B", "1.0")]);
    ("https://registry.npmjs.org/B", one_version [("C", "1.0")]);
    ("https://registry.npmjs.org/C", one_version [("D", "1.0")]);
    ("https://registry.npmjs.org/D", one_version []) ].

(** ** Loading the configuration ([load_config], lines 11-33)

    What [open] and [yaml.safe_load] give for a path: no such file, a text
    that is not YAML (with the text of the [yaml.YAMLError]), or a document.
    A document is a mapping with string keys; its values are strings or
    integers.  The printing of lines 24-26 is not modelled. *)

Inductive yaml_value : Type :=
| YString (s : string)
| YInteger (z : Z).

Inductive yaml_file : Type :=
| NoSuchFile
| Unparsable (problem : string)
| Document (config : dict yaml_value).

(** Line 18. *)
Definition required : list string :=
  ["package_name"; "repository_url"; "mode"; "version"; "output_file";
   "max_depth"].

(** The loop of lines 19-21 over the remaining parameters. *)
Fixpoint check_required (config : dict yaml_value) (params : list string)
  : outcome unit :=
  match params with
  | [] => Returned tt
  | param :: rest =>
      if Dict.mem param config then check_required config rest
      else Raised (ValueError ("Не хватает параметра: " ++ param)%string)
  end.

Definition load_config (read_yaml : string -> yaml_file)
    (config_file : string) : outcome (dict yaml_value) :=
  match read_yaml config_file with
  | NoSuchFile =>
      Raised (FileNotFoundError
                ("Файл " ++ config_file ++ " не найден")%string)
  | Unparsable problem =>
      Raised (ValueError ("Ошибка в YAML файле: " ++ problem)%string)
  | Document config =>
      match check_required config required with
      | Returned _ => Returned config
      | Raised e => Raised e
      end
  end.

(** ** Reading the graph *)

(** [y] is listed among the dependencies recorded for [x]. *)
Definition edge (g : dict DependencySpecifierMapping) (x y : string) : Prop :=
  exists ds, Dict.get x g = Some ds /\ In y (Dict.keys ds).

(** [Reach g root x k]: [k] edges of [g] lead from [root] to [x]. *)
Inductive Reach (g : dict DependencySpecifierMapping) (root : string)
  : string -> nat -> Prop :=
| Reach_root : Reach g root root 0
| Reach_step x y k : Reach g root x k -> edge g x y -> Reach g root y (S k).

(** How a call for [n] at depth [d] was arrived at: it is the root call, or
    [n] is listed by a package reached in [d - 1] edges. *)
Definition arrival (g : dict DependencySpecifierMapping) (root n : string)
    (d : Z) : Prop :=
  (n = root /\ d = 0) \/
  (exists x k, Reach g root x k /\ edge g x n /\ d = Z.of_nat (S k)).

(** No entry of the graph was changed or removed. *)
Definition preserved (st st' : State) : Prop :=
  forall k ds,
    Dict.get k (dependency_graph st) = Some ds ->
    Dict.get k (dependency_graph st') = Some ds.

(** Every new entry of the graph is the answer to a lookup made on the
    way. *)
Definition looked_up (config : Config) (world : World)
    (st st' : State) : Prop :=
  exists new,
    trace st' = trace st ++ new /\
    forall k ds,
      Dict.get k (dependency_graph st') = Some ds ->
      Dict.get k (dependency_graph st) = Some ds \/
      exists v info,
        In (EFetch k v) new /\
        get_package_info config world k v = Returned info /\
        ds = deps_of info.

(** A -> B, C;  B -> C;  C -> D. *)
Definition shortcut_fixture : dict PackageMetadata :=
  [ ("A", metadata [("B", "1.0"); ("C", "1.0")]);
    ("B", metadata [("C", "1.0")]);
    ("C", metadata [("D", "1.0")]);
    ("D", metadata []) ].

(** ** Dictionaries *)

Lemma in_list_In x l : in_list x l = true <-> In x l.
Proof.
  unfold in_list. rewrite existsb_exists. split.
  - intros [y [Hy E]]. apply String.eqb_eq in E. now subst.
  - intros H. exists x. split; [assumption | apply String.eqb_refl].
Qed.

Lemma in_list_false x l : in_list x l = false <-> ~ In x l.
Proof.
  rewrite <- in_list_In. destruct (in_list x l); split; congruence.
Qed.

Lemma mem_In V k (d : dict V) : Dict.mem k d = true <-> In k (Dict.keys d).
Proof.
  unfold Dict.mem. induction d as [|[k' v] r IH]; simpl.
  - split; [discriminate | tauto].
  - destruct (String.eqb_spec k k') as [->|N].
    + split; auto.
    + rewrite IH. split; [auto | intros [E|H]; congruence].
Qed.

Lemma mem_false V k (d : dict V) : Dict.mem k d = false <-> ~ In k (Dict.keys d).
Proof.
  rewrite <- mem_In. destruct (Dict.mem k d); split; congruence.
Qed.

Lemma keys_set_new V k (v : V) d :
  ~ In k (Dict.keys d) -> Dict.keys (Dict.set k v d) = Dict.keys d ++ [k].
Proof.
  induction d as [|[k' v'] r IH]; simpl; intros H; [reflexivity|].
  destruct (String.eqb_spec k k') as [->|N]; [tauto|].
  simpl. f_equal. apply IH. tauto.
Qed.

Lemma keys_set_known V k (v : V) d :
  In k (Dict.keys d) -> Dict.keys (Dict.set k v d) = Dict.keys d.
Proof.
  induction d as [|[k' v'] r IH]; simpl; intros H; [tauto|].
  destruct (String.eqb_spec k k') as [->|N]; [reflexivity|].
  simpl. f_equal. apply IH. destruct H; congruence.
Qed.

Lemma get_set_same V k (v : V) d : Dict.get k (Dict.set k v d) = Some v.
Proof.
  induction d as [|[k' v'] r IH]; simpl.
  - now rewrite String.eqb_refl.
  - destruct (String.eqb_spec k k') as [->|N]; simpl.
    + now rewrite String.eqb_refl.
    + destruct (String.eqb_spec k k'); [contradiction | exact IH].
Qed.

Lemma get_set_other V k k' (v : V) d :
  k' <> k -> Dict.get k' (Dict.set k v d) = Dict.get k' d.
Proof.
  intros N. induction d as [|[k0 v0] r IH]; simpl.
  - destruct (String.eqb_spec k' k); [contradiction | reflexivity].
  - destruct (String.eqb_spec k k0) as [->|N0]; simpl.
    + destruct (String.eqb_spec k' k0); [contradiction | reflexivity].
    + now rewrite IH.
Qed.

Lemma fetched_app t u : fetched (t ++ u) = fetched t ++ fetched u.
Proof.
  induction t as [|[n v|c] t IH]; simpl; [reflexivity | now f_equal | exact IH].
Qed.

Lemma cycle_reports_app t u :
  cycle_reports (t ++ u) = cycle_reports t ++ cycle_reports u.
Proof.
  induction t as [|[n v|c] t IH]; simpl; [reflexivity | exact IH | now f_equal].
Qed.

(** ** Unfolding the traversal *)

Section Unfolding.

Variable config : Config.
Variable world : World.

Lemma build_step fuel n v d p st :
  build_dependency_graph config world (S fuel) n v d p st =
  if d >? max_depth config then Some (st, Returned tt)
  else if in_list n p then
    Some (with_event st (ECycle (p ++ [n])), Returned tt)
  else
    match get_package_info config world n v with
    | Raised e => Some (with_event st (EFetch n v), Raised e)
    | Returned info =>
        for_each
          (unless_known
             (fun dn dv =>
                build_dependency_graph config world fuel dn dv (d + 1)
                  (p ++ [n])))
          (deps_of info)
          (with_entry (with_event st (EFetch n v)) n (deps_of info))
    end.
Proof.
  cbn [build_dependency_graph].
  destruct (d >? max_depth config); [reflexivity|].
  destruct (in_list n p); [reflexivity|].
  unfold get_direct_dependencies, bind, emit, lift, ret, graph_set.
  destruct (get_package_info config world n v); reflexivity.
Qed.

Lemma loop_step (call : string -> string -> M unit) dn dv r st :
  for_each (unless_known call) ((dn, dv) :: r) st =
  if Dict.mem dn (dependency_graph st) then for_each (unless_known call) r st
  else
    match call dn dv st with
    | None => None
    | Some (st', Raised e) => Some (st', Raised e)
    | Some (st', Returned _) => for_each (unless_known call) r st'
    end.
Proof.
  cbn [for_each]. unfold unless_known at 1, bind, graph_mem, ret.
  destruct (Dict.mem dn (dependency_graph st)); reflexivity.
Qed.

End Unfolding.

(** ** The function computes the relation, and needs [frames] activations *)

Section Adequacy.

Variable config : Config.
Variable world : World.

Local Abbreviation build := (build_dependency_graph config world).

Lemma loop_sound fuel d p
  (IH : forall n v st st' o,
      build fuel n v d p st = Some (st', o) -> Build config world n v d p st st' o) :
  forall deps st st' o,
    for_each (unless_known (fun dn dv => build fuel dn dv d p)) deps st =
    Some (st', o) ->
    Loop config world d p deps st st' o.
Proof.
  induction deps as [|[dn dv] r IHr]; intros st st' o H.
  - inversion H; subst. constructor.
  - rewrite loop_step in H.
    destruct (Dict.mem dn (dependency_graph st)) eqn:K.
    + apply Loop_known; auto.
    + destruct (build fuel dn dv d p st) as [[st1 [[]|e]]|] eqn:B;
        try discriminate.
      * eapply Loop_next; eauto.
      * inversion H; subst. apply Loop_raises; auto.
Qed.

Lemma build_sound fuel :
  forall n v d p st st' o,
    build fuel n v d p st = Some (st', o) -> Build config world n v d p st st' o.
Proof.
  induction fuel as [|fuel IH]; intros n v d p st st' o H; [discriminate|].
  rewrite build_step in H.
  destruct (Z.gtb_spec d (max_depth config)) as [G|G].
  { inversion H; subst. now constructor. }
  destruct (in_list n p) eqn:C.
  { inversion H; subst. apply Build_cycle; [assumption | now apply in_list_In]. }
  apply in_list_false in C.
  destruct (get_package_info config world n v) as [info|e] eqn:F.
  - eapply Build_visit; eauto. apply loop_sound with (fuel := fuel); auto.
  - inversion H; subst. now apply Build_fetch_raises.
Qed.

Lemma loop_total (call : string -> string -> M unit)
  (T : forall n v st, exists r, call n v st = Some r) :
  forall deps st, exists r, for_each (unless_known call) deps st = Some r.
Proof.
  induction deps as [|[dn dv] r IHr]; intros st.
  - eexists; reflexivity.
  - rewrite loop_step. destruct (Dict.mem dn (dependency_graph st)); [apply IHr|].
    destruct (T dn dv st) as [[st1 [u|e]] ->]; [apply IHr | eexists; reflexivity].
Qed.

Lemma build_total fuel :
  forall n v d p st,
    (Z.to_nat (max_depth config + 1 - d) < fuel)%nat ->
    exists r, build fuel n v d p st = Some r.
Proof.
  induction fuel as [|fuel IH]; intros n v d p st Hf; [lia|].
  rewrite build_step.
  destruct (Z.gtb_spec d (max_depth config)) as [G|G]; [eexists; reflexivity|].
  destruct (in_list n p); [eexists; reflexivity|].
  destruct (get_package_info config world n v); [|eexists; reflexivity].
  apply loop_total. intros. apply IH. lia.
Qed.

Lemma loop_mono (f g : string -> string -> M unit)
  (Hfg : forall n v st r, f n v st = Some r -> g n v st = Some r) :
  forall deps st r,
    for_each (unless_known f) deps st = Some r ->
    for_each (unless_known g) deps st = Some r.
Proof.
  induction deps as [|[dn dv] t IHt]; intros st r H; [exact H|].
  rewrite loop_step in *.
  destruct (Dict.mem dn (dependency_graph st)); [now apply IHt|].
  destruct (f dn dv st) as [[st1 [u|e]]|] eqn:F; try discriminate;
    rewrite (Hfg _ _ _ _ F); auto.
Qed.

Lemma build_mono_S fuel :
  forall n v d p st r,
    build fuel n v d p st = Some r -> build (S fuel) n v d p st = Some r.
Proof.
  induction fuel as [|fuel IH]; intros n v d p st r H; [discriminate|].
  rewrite build_step in H. rewrite build_step.
  destruct (d >? max_depth config); [exact H|].
  destruct (in_list n p); [exact H|].
  destruct (get_package_info config world n v); [|exact H].
  revert H. apply loop_mono. intros. now apply IH.
Qed.

Lemma build_mono fuel fuel' n v d p st r :
  (fuel <= fuel')%nat ->
  build fuel n v d p st = Some r -> build fuel' n v d p st = Some r.
Proof.
  induction 1; [auto | intros; apply build_mono_S; auto].
Qed.

(** Every call has a result, reached with [frames] activations and the same
    for every larger budget, and the relation describes it. *)
Lemma build_result n v d p st :
  exists st' o,
    Build config world n v d p st st' o /\
    forall fuel, (frames config d <= fuel)%nat ->
                 build fuel n v d p st = Some (st', o).
Proof.
  destruct (build_total (fuel := frames config d) n v d p st) as [[st' o] E].
  { unfold frames. lia. }
  exists st', o. split; [eapply build_sound; eauto|].
  intros fuel Hf. eapply build_mono; eauto.
Qed.

Lemma build_without_cycle_guard_total fuel :
  forall n v d p st,
    (Z.to_nat (max_depth config + 1 - d) < fuel)%nat ->
    exists r, build_without_cycle_guard config world fuel n v d p st = Some r.
Proof.
  induction fuel as [|fuel IH]; intros n v d p st Hf; [lia|].
  cbn [build_without_cycle_guard].
  destruct (Z.gtb_spec d (max_depth config)) as [G|G]; [eexists; reflexivity|].
  unfold get_direct_dependencies, bind at 1 2 3, emit, lift, ret, graph_set.
  destruct (get_package_info config world n v); [|eexists; reflexivity].
  apply loop_total. intros. apply IH. lia.
Qed.

End Adequacy.

(** ** Invariants of the traversal, by induction on its derivation *)

Lemma fresh_growth_refl st : fresh_growth st st (Returned tt).
Proof.
  exists []. rewrite !app_nil_r. repeat split; simpl; [constructor | tauto].
Qed.

Lemma fresh_growth_event st c : fresh_growth st (with_event st (ECycle c)) (Returned tt).
Proof.
  exists [ECycle c]. simpl. rewrite app_nil_r.
  repeat split; [constructor | tauto].
Qed.

Lemma fresh_growth_trans st st1 st' u o :
  fresh_growth st st1 (Returned u) -> fresh_growth st1 st' o ->
  fresh_growth st st' o.
Proof.
  intros (n1 & T1 & D1 & F1 & K1) (n2 & T2 & D2 & F2 & K2).
  exists (n1 ++ n2). rewrite fetched_app, app_assoc, <- T1.
  split; [exact T2|]. rewrite K1 in F2, K2. split; [|split].
  - apply NoDup_app; repeat split; auto.
    intros x Hx1 Hx2. apply (F2 x Hx2). apply in_or_app. now right.
  - intros x Hx. apply in_app_or in Hx. destruct Hx as [Hx|Hx]; [now apply F1|].
    intros Hk. apply (F2 x Hx). apply in_or_app. now left.
  - destruct o as [u'|e].
    + now rewrite K2, app_assoc.
    + destruct K2 as (ns & x & E & K). exists (fetched n1 ++ ns), x.
      now rewrite E, K, !app_assoc.
Qed.

Lemma fresh_growth_fetch st n v ds st' o :
  ~ In n (Dict.keys (dependency_graph st)) ->
  fresh_growth (with_entry (with_event st (EFetch n v)) n ds) st' o ->
  fresh_growth st st' o.
Proof.
  intros Hn. apply fresh_growth_trans with (u := tt).
  exists [EFetch n v]. simpl. repeat split.
  - repeat constructor. simpl. tauto.
  - intros x [<-|[]]. exact Hn.
  - now apply keys_set_new.
Qed.

Lemma fresh_growth_raise st n v e :
  ~ In n (Dict.keys (dependency_graph st)) ->
  fresh_growth st (with_event st (EFetch n v)) (Raised e).
Proof.
  intros Hn. exists [EFetch n v]. simpl. repeat split.
  - repeat constructor. simpl. tauto.
  - intros x [<-|[]]. exact Hn.
  - exists [], n. now rewrite app_nil_r.
Qed.

Lemma quiet_refl st : quiet st st.
Proof. split; [reflexivity | apply incl_refl]. Qed.

Lemma quiet_trans st st1 st' : quiet st st1 -> quiet st1 st' -> quiet st st'.
Proof.
  intros [R1 I1] [R2 I2]. split; [congruence | eapply incl_tran; eauto].
Qed.

Lemma quiet_fetch st n v ds :
  quiet st (with_entry (with_event st (EFetch n v)) n ds).
Proof.
  split; simpl.
  - rewrite cycle_reports_app. simpl. apply app_nil_r.
  - intros x Hx.
    destruct (in_dec string_dec n (Dict.keys (dependency_graph st))) as [K|K].
    + now rewrite keys_set_known.
    + rewrite keys_set_new by assumption. apply in_or_app. now left.
Qed.

Lemma quiet_raise st n v : quiet st (with_event st (EFetch n v)).
Proof.
  split; simpl; [|apply incl_refl].
  rewrite cycle_reports_app. simpl. apply app_nil_r.
Qed.

Section Invariants.

Variable config : Config.
Variable world : World.

Lemma traversal_fresh_growth :
  (forall n v d p st st' o,
      Build config world n v d p st st' o ->
      ~ In n (Dict.keys (dependency_graph st)) -> fresh_growth st st' o) /\
  (forall d p deps st st' o,
      Loop config world d p deps st st' o -> fresh_growth st st' o).
Proof.
  apply Build_Loop_ind; intros.
  - apply fresh_growth_refl.
  - apply fresh_growth_event.
  - now apply fresh_growth_raise.
  - eapply fresh_growth_fetch; eauto.
  - apply fresh_growth_refl.
  - assumption.
  - match goal with H : _ -> fresh_growth _ _ _ |- _ => apply H end.
    now apply mem_false.
  - eapply fresh_growth_trans; [|eassumption].
    match goal with H : _ -> fresh_growth _ _ _ |- _ => apply H end.
    now apply mem_false.
Qed.

Lemma error_last_refl st : error_last config world st st (Returned tt).
Proof. exists []. rewrite app_nil_r. split; [reflexivity | constructor]. Qed.

Lemma error_last_trans st st1 st' u o :
  error_last config world st st1 (Returned u) ->
  error_last config world st1 st' o ->
  error_last config world st st' o.
Proof.
  intros (n1 & T1 & A1) (n2 & T2 & A2).
  exists (n1 ++ n2). rewrite app_assoc, <- T1. split; [exact T2|].
  destruct o as [u'|e].
  - apply Forall_app. now split.
  - destruct A2 as (pre & n & v & E & A & F).
    exists (n1 ++ pre), n, v. rewrite E, app_assoc.
    repeat split; [apply Forall_app; now split | exact F].
Qed.

Lemma error_last_one st e :
  answered config world e ->
  error_last config world st (with_event st e) (Returned tt).
Proof. intros A. exists [e]. split; [reflexivity | now repeat constructor]. Qed.

Lemma error_last_entry st n ds st' o :
  error_last config world (with_entry st n ds) st' o ->
  error_last config world st st' o.
Proof. intros (new & T & A). exists new. now split. Qed.

Lemma traversal_error_last :
  (forall n v d p st st' o,
      Build config world n v d p st st' o ->
      error_last config world st st' o) /\
  (forall d p deps st st' o,
      Loop config world d p deps st st' o ->
      error_last config world st st' o).
Proof.
  apply Build_Loop_ind; intros; try assumption.
  - apply error_last_refl.
  - now apply error_last_one.
  - exists [EFetch n v]. split; [reflexivity|].
    exists [], n, v. repeat split; [constructor | assumption].
  - apply error_last_trans with (st1 := with_event st (EFetch n v)) (u := tt).
    + apply error_last_one. simpl. eauto.
    + eapply error_last_entry; eauto.
  - apply error_last_refl.
  - eapply error_last_trans; eauto.
Qed.

Lemma traversal_justified :
  (forall n v d p st st' o,
      Build config world n v d p st st' o -> justified config world st st') /\
  (forall d p deps st st' o,
      Loop config world d p deps st st' o -> justified config world st st').
Proof.
  apply Build_Loop_ind; intros; try assumption;
    try (intros k ds Hk; left; exact Hk).
  - intros k ds Hk.
    match goal with H : justified _ _ _ _ |- _ => destruct (H k ds Hk) as [G|G] end;
      [|now right].
    simpl in G. destruct (string_dec k n) as [->|N].
    + rewrite get_set_same in G. inversion G; subst. right. eauto.
    + rewrite get_set_other in G by assumption. now left.
  - intros k ds Hk.
    match goal with
    | H1 : justified _ _ st st1, H2 : justified _ _ st1 st' |- _ =>
        destruct (H2 k ds Hk) as [G|G]; [apply (H1 k ds G) | now right]
    end.
Qed.

Lemma traversal_quiet :
  (forall n v d p st st' o,
      Build config world n v d p st st' o ->
      ~ In n (Dict.keys (dependency_graph st)) ->
      incl p (Dict.keys (dependency_graph st)) ->
      quiet st st') /\
  (forall d p deps st st' o,
      Loop config world d p deps st st' o ->
      incl p (Dict.keys (dependency_graph st)) ->
      quiet st st').
Proof.
  apply Build_Loop_ind.
  - intros. apply quiet_refl.
  - intros n v d p st _ Hin Hn Hp. destruct Hn. now apply Hp.
  - intros. apply quiet_raise.
  - intros n v d p st info st' o _ _ _ _ IH Hn Hp.
    eapply quiet_trans; [apply quiet_fetch with (n := n) (v := v)|].
    apply IH. simpl. rewrite keys_set_new by assumption.
    apply incl_app; [now apply incl_appl | apply incl_appr, incl_refl].
  - intros. apply quiet_refl.
  - intros d p dn dv r st st' o _ _ IH Hp. now apply IH.
  - intros d p dn dv r st st' e K _ IH Hp. apply IH; [now apply mem_false | exact Hp].
  - intros d p dn dv r st st1 st' o K _ IH1 _ IH2 Hp.
    assert (Q : quiet st st1) by (apply IH1; [now apply mem_false | exact Hp]).
    eapply quiet_trans; [exact Q|]. apply IH2.
    eapply incl_tran; [exact Hp | apply Q].
Qed.

End Invariants.

(** ** Runs of the analyzer *)

Lemma main_budget config world fuel k r :
  main config world fuel = Some r -> main config world (fuel + k) = Some r.
Proof. unfold main, run_analysis. apply build_mono. lia. Qed.

Lemma main_result config world :
  exists st o,
    Build config world (package_name config) (version config) 0 []
          new_analyzer st o /\
    forall fuel, main config world (frames config 0 + fuel) = Some (st, o).
Proof.
  destruct (build_result config world (package_name config) (version config)
              0 [] new_analyzer) as (st & o & B & E).
  exists st, o. split; [exact B|]. intros fuel. apply E. lia.
Qed.

Lemma In_keys_get V k (d : dict V) :
  In k (Dict.keys d) -> exists v, Dict.get k d = Some v.
Proof.
  intros H. apply mem_In in H. unfold Dict.mem in H.
  destruct (Dict.get k d); [eauto | discriminate].
Qed.

(** X13, the cycle check of lines 83-85: a call that passes the depth
    check with a name of its own path prints the chain, the path followed by
    the name, and does nothing else: no lookup, no new key. *)
Lemma cycle_guard config world fuel n v d p st :
  d <= max_depth config -> In n p ->
  build_dependency_graph config world (S fuel) n v d p st =
  Some (with_event st (ECycle (p ++ [n])), Returned tt).
Proof.
  intros Hd Hp. rewrite build_step.
  destruct (Z.gtb_spec d (max_depth config)); [lia|].
  apply in_list_In in Hp. now rewrite Hp.
Qed.

Lemma cycle_message_example : cycle_message ["A"; "B"; "A"] = "A -> B -> A".
Proof. reflexivity. Qed.

(** A run of a fresh analyzer never reaches the cycle report: every name
    of the path is a key of the graph, and only names that are not keys are
    descended into. *)
Lemma fresh_run_never_reports config world fuel st o :
  main config world fuel = Some (st, o) -> cycle_reports (trace st) = [].
Proof.
  intros H. apply build_sound in H.
  apply (proj1 (traversal_quiet config world)) in H.
  - apply H.
  - simpl. tauto.
  - apply incl_nil_l.
Qed.

(** ** The claims *)

(** C1: in a call for a name that is not yet a key, whatever the depth and
    the path, the Package Info Source is invoked at most once per name, never
    for a name that already was a key, and exactly once for every name the
    call adds to the graph; an item of the loop whose name is a key is
    skipped without a call. *)
Theorem no_duplicate_fetch config world n v d p st :
  ~ In n (Dict.keys (dependency_graph st)) ->
  (forall call dn dv r s,
      Dict.mem dn (dependency_graph s) = true ->
      for_each (unless_known call) ((dn, dv) :: r) s =
      for_each (unless_known call) r s) /\
  exists st' o new,
    (forall fuel, (frames config d <= fuel)%nat ->
       build_dependency_graph config world fuel n v d p st = Some (st', o)) /\
    trace st' = trace st ++ new /\
    NoDup (fetched new) /\
    (forall x, (count_occ string_dec (fetched new) x <= 1)%nat) /\
    (forall x, In x (fetched new) ->
               ~ In x (Dict.keys (dependency_graph st))) /\
    (forall x, In x (Dict.keys (dependency_graph st')) ->
               ~ In x (Dict.keys (dependency_graph st)) ->
               count_occ string_dec (fetched new) x = 1%nat).
Proof.
  intros Hn. split.
  { intros call dn dv r s K. rewrite loop_step. now rewrite K. }
  destruct (build_result config world n v d p st) as (st' & o & B & E).
  apply (proj1 (traversal_fresh_growth config world)) in B; [|exact Hn].
  destruct B as (new & T & D & F & K).
  exists st', o, new. repeat split; auto.
  - now apply NoDup_count_occ.
  - intros x Hx Hx0. apply NoDup_count_occ'; [exact D|].
    destruct o as [u|e].
    + rewrite K in Hx. apply in_app_or in Hx. tauto.
    + destruct K as (ns & y & E1 & K). rewrite K in Hx.
      apply in_app_or in Hx. destruct Hx as [Hx|Hx]; [tauto|].
      rewrite E1. apply in_or_app. now left.
Qed.

Lemma no_duplicate_fetch_witness :
  ~ In "A" (Dict.keys (dependency_graph new_analyzer)) /\
  exists st' o new,
    (forall fuel, (frames (test_config "A" "1.0" 5) 0 <= fuel)%nat ->
       build_dependency_graph (test_config "A" "1.0" 5)
         (fixture_world "test_repo.json" diamond_fixture) fuel
         "A" "1.0" 0 [] new_analyzer = Some (st', o)) /\
    trace st' = trace new_analyzer ++ new /\
    NoDup (fetched new) /\
    (forall x, (count_occ string_dec (fetched new) x <= 1)%nat) /\
    (forall x, In x (fetched new) ->
               ~ In x (Dict.keys (dependency_graph new_analyzer))) /\
    (forall x, In x (Dict.keys (dependency_graph st')) ->
               ~ In x (Dict.keys (dependency_graph new_analyzer)) ->
               count_occ string_dec (fetched new) x = 1%nat).
Proof.
  split; [simpl; tauto|].
  apply (no_duplicate_fetch (test_config "A" "1.0" 5)
           (fixture_world "test_repo.json" diamond_fixture)
           "A" "1.0" 0 [] new_analyzer).
  simpl; tauto.
Defined.

Lemma children_cut_off config world fuel p :
  forall deps st,
    for_each
      (unless_known
         (fun dn dv =>
            build_dependency_graph config world (S fuel) dn dv
              (max_depth config + 1) p))
      deps st = Some (st, Returned tt).
Proof.
  induction deps as [|[dn dv] r IH]; intros st; [reflexivity|].
  rewrite loop_step. destruct (Dict.mem dn (dependency_graph st)); [apply IH|].
  rewrite build_step.
  destruct (Z.gtb_spec (max_depth config + 1) (max_depth config)); [apply IH | lia].
Qed.

(** C2: a call deeper than [max_depth] returns at once, with the graph and
    the trace as they were (no invocation of the source, no new key); a call
    at depth [max_depth] that is not stopped by the cycle check invokes the
    source, and when the lookup answers it records the node, and that is
    all: its children, entered at [max_depth + 1], leave no mark.  (When the
    lookup raises, the invocation is made and the exception leaves the
    call.) *)
Theorem depth_guard config world :
  (forall fuel n v d p st,
      max_depth config < d ->
      build_dependency_graph config world (S fuel) n v d p st =
      Some (st, Returned tt)) /\
  (forall fuel n v p st info,
      ~ In n p ->
      get_package_info config world n v = Returned info ->
      build_dependency_graph config world (S (S fuel)) n v
        (max_depth config) p st =
      Some (with_entry (with_event st (EFetch n v)) n (deps_of info),
            Returned tt)) /\
  (forall fuel n v p st e,
      ~ In n p ->
      get_package_info config world n v = Raised e ->
      build_dependency_graph config world (S fuel) n v
        (max_depth config) p st =
      Some (with_event st (EFetch n v), Raised e)).
Proof.
  split; [|split].
  - intros fuel n v d p st Hd. rewrite build_step.
    destruct (Z.gtb_spec d (max_depth config)); [reflexivity | lia].
  - intros fuel n v p st info Hp Hi. rewrite build_step.
    destruct (Z.gtb_spec (max_depth config) (max_depth config)); [lia|].
    apply in_list_false in Hp. rewrite Hp, Hi. apply children_cut_off.
  - intros fuel n v p st e Hp Hi. rewrite build_step.
    destruct (Z.gtb_spec (max_depth config) (max_depth config)); [lia|].
    apply in_list_false in Hp. now rewrite Hp, Hi.
Qed.

Lemma depth_guard_witness :
  build_dependency_graph (test_config "A" "1.0" 1)
    (fixture_world "test_repo.json" chain_fixture) 1 "C" "1.0" 2 ["A"; "B"]
    new_analyzer = Some (new_analyzer, Returned tt) /\
  build_dependency_graph (test_config "A" "1.0" 1)
    (fixture_world "test_repo.json" chain_fixture) 2 "B" "1.0" 1 ["A"]
    new_analyzer =
  Some (with_entry (with_event new_analyzer (EFetch "B" "1.0")) "B"
          [("C", "1.0")], Returned tt).
Proof.
  destruct (depth_guard (test_config "A" "1.0" 1)
              (fixture_world "test_repo.json" chain_fixture))
    as [deep [edge _]].
  split.
  - apply deep. simpl. lia.
  - apply (edge 0%nat "B" "1.0" ["A"] new_analyzer (metadata [("C", "1.0")])).
    + simpl. intros [H|[]]. discriminate H.
    + reflexivity.
Defined.

(** C3, as stated, fails: with [max_depth = 1] the chain A -> B -> C -> D
    leaves the keys A and B; C is entered at depth 2 > 1 and is cut. *)
Lemma depth_two_of_chain_is_cut :
  exists st,
    main (test_config "A" "1.0" 1)
      (fixture_world "test_repo.json" chain_fixture)
      (frames (test_config "A" "1.0" 1) 0) = Some (st, Returned tt) /\
    Dict.keys (dependency_graph st) <> ["A"; "B"; "C"] /\
    ~ In "C" (Dict.keys (dependency_graph st)).
Proof.
  eexists. split; [vm_compute; reflexivity|]. simpl. split.
  - discriminate.
  - intros [H|[H|[]]]; discriminate H.
Qed.

(** C3, amended: with [max_depth = 1] the chain A -> B -> C -> D, from a
    fixture or from a registry, records exactly A and B, in this order, and
    neither C nor D; the source is invoked for A and B only. *)
Theorem chain_depth_one fuel :
  main (test_config "A" "1.0" 1)
    (fixture_world "test_repo.json" chain_fixture)
    (frames (test_config "A" "1.0" 1) 0 + fuel) =
  Some ({| dependency_graph := [("A", [("B", "1.0")]); ("B", [("C", "1.0")])];
           trace := [EFetch "A" "1.0"; EFetch "B" "1.0"] |}, Returned tt) /\
  main (live_config "A" "1.0" 1) (registry_world chain_registry)
    (frames (live_config "A" "1.0" 1) 0 + fuel) =
  Some ({| dependency_graph := [("A", [("B", "1.0")]); ("B", [("C", "1.0")])];
           trace := [EFetch "A" "1.0"; EFetch "B" "1.0"] |}, Returned tt).
Proof.
  split; apply main_budget; vm_compute; reflexivity.
Qed.

(** C4, at the registry A -> B -> A: the run records A and B and ends, but
    prints no cycle report; B's dependency A is already a key of the graph
    and is skipped before the cycle check could see it. *)
Theorem mutual_cycle_not_reported fuel :
  exists st,
    main (test_config "A" "1.0" 5)
      (fixture_world "test_repo.json" cyclic_fixture)
      (frames (test_config "A" "1.0" 5) 0 + fuel) = Some (st, Returned tt) /\
    dependency_graph st = [("A", [("B", "1.0")]); ("B", [("A", "1.0")])] /\
    trace st = [EFetch "A" "1.0"; EFetch "B" "1.0"] /\
    cycle_reports (trace st) = [] /\
    ~ In ["A"; "B"; "A"] (cycle_reports (trace st)).
Proof.
  eexists. split; [apply main_budget; vm_compute; reflexivity|].
  simpl. repeat split; auto.
Qed.

(** X2, lines 52-53: in live mode, with status 200, a requested version
    that is a key of [versions] is the one returned, wherever it stands. *)
Lemma live_requested_version config world n v vs info :
  mode config <> "test" ->
  status_code (http_get world (request_url config n)) = 200 ->
  versions (json (http_get world (request_url config n))) = Some vs ->
  Dict.get v vs = Some info ->
  get_package_info config world n v = Returned info.
Proof.
  intros Hm Hs Hv Hg. unfold get_package_info.
  apply String.eqb_neq in Hm. rewrite Hm.
  unfold request_url in *. rewrite Hs, Hv. simpl.
  unfold Dict.mem, subscript. now rewrite Hg.
Qed.

(** X3, lines 55-58: in live mode, with status 200, when the requested
    version is not a key, the first entry of [versions] is returned,
    provided its key is not the empty string. *)
Lemma live_first_version config world n v k info r :
  mode config <> "test" ->
  status_code (http_get world (request_url config n)) = 200 ->
  versions (json (http_get world (request_url config n))) =
    Some ((k, info) :: r) ->
  Dict.get v ((k, info) :: r) = None ->
  k <> "" ->
  get_package_info config world n v = Returned info.
Proof.
  intros Hm Hs Hv Hg Hk. unfold get_package_info.
  apply String.eqb_neq in Hm. rewrite Hm.
  unfold request_url in *. rewrite Hs, Hv. simpl Z.eqb. cbv iota.
  unfold Dict.mem. rewrite Hg. cbn [Dict.keys map fst hd_error].
  destruct k as [|c k]; [contradiction|].
  unfold truthy, subscript. cbn [Dict.get]. now rewrite String.eqb_refl.
Qed.

Lemma fallback_in_stored_order :
  let config := live_config "A" "3.0.0" 5 in
  let world := registry_world
                 [("https://registry.npmjs.org/A", two_versions_answer)] in
  get_package_info config world "A" "3.0.0" =
    Returned (metadata [("B", "^2.0")]) /\
  get_package_info config world "A" "1.0.0" =
    Returned (metadata [("C", "^1.0")]).
Proof. split; reflexivity. Qed.

(** C5, at a registry whose first version key is the empty string: the
    requested version is absent, the first entry exists, and the lookup
    raises instead of returning it. *)
Theorem blank_first_version_raises :
  let world := registry_world
                 [("https://registry.npmjs.org/A", blank_version_answer)] in
  versions (json (http_get world
                    (request_url (live_config "A" "1.0" 5) "A"))) =
    Some [("", metadata [("B", "1.0")])] /\
  get_package_info (live_config "A" "1.0" 5) world "A" "1.0" =
    Raised (ValueError (no_package_info "A")).
Proof. split; reflexivity. Qed.

Lemma unresolvable_raises config world n v :
  mode config <> "test" ->
  unresolvable config world n ->
  get_package_info config world n v = Raised (ValueError (no_package_info n)).
Proof.
  intros Hm Hu. unfold get_package_info.
  apply String.eqb_neq in Hm. rewrite Hm.
  unfold unresolvable, request_url in Hu.
  destruct (Z.eqb_spec
              (status_code
                 (http_get world (repository_url config ++ "/" ++ n)%string))
              200) as [E|E]; [|reflexivity].
  destruct Hu as [Hu|[Hu|Hu]]; [contradiction | |]; now rewrite Hu.
Qed.

(** C6: in live mode, a lookup that gets a status other than 200, or a body
    whose [versions] is empty or absent, raises [ValueError] with the message
    that ends in the package name; and the run of a fresh analyzer, which
    always has a result, ends with that very exception as soon as such a
    package is looked up: the failed invocation is the last event, and the
    package is not recorded. *)
Theorem resolution_error_fatal config world :
  mode config <> "test" ->
  (forall n v,
      unresolvable config world n ->
      get_package_info config world n v =
      Raised (ValueError
                ("Не удалось получить информацию о пакете " ++ n)%string)) /\
  exists st o,
    (forall fuel, main config world (frames config 0 + fuel) = Some (st, o)) /\
    forall n v,
      In (EFetch n v) (trace st) ->
      unresolvable config world n ->
      o = Raised (ValueError (no_package_info n)) /\
      (exists pre, trace st = pre ++ [EFetch n v]) /\
      ~ In n (Dict.keys (dependency_graph st)).
Proof.
  intros Hm. split; [intros; now apply unresolvable_raises|].
  destruct (main_result config world) as (st & o & B & E).
  exists st, o. split; [exact E|]. intros n v Hin Hu.
  pose proof (unresolvable_raises v Hm Hu) as Hr.
  destruct (proj1 (traversal_error_last config world) _ _ _ _ _ _ _ B)
    as (new & T & A).
  simpl in T. subst new.
  assert (Hbad : ~ answered config world (EFetch n v)).
  { simpl. intros [info Hi]. congruence. }
  destruct o as [u|e].
  { rewrite Forall_forall in A. destruct Hbad. now apply A. }
  destruct A as (pre & n' & v' & Et & Apre & Hr').
  rewrite Et in Hin. apply in_app_or in Hin. destruct Hin as [Hin|Hin].
  { rewrite Forall_forall in Apre. destruct Hbad. now apply Apre. }
  destruct Hin as [Hin|[]]. inversion Hin; subst n' v'.
  repeat split; [congruence | now exists pre |].
  destruct (proj1 (traversal_fresh_growth config world) _ _ _ _ _ _ _ B)
    as (new & T & D & _ & ns & x & Ef & K); [simpl; tauto|].
  simpl in T, K. rewrite T in Et. subst new.
  rewrite fetched_app in Ef, D. simpl in Ef, D.
  apply app_inj_tail in Ef. destruct Ef as [<- <-].
  rewrite K. intros Hk. apply NoDup_remove_2 in D.
  apply D. now rewrite app_nil_r.
Qed.

Lemma resolution_error_fatal_witness :
  mode (live_config "A" "1.0" 5) <> "test" /\
  get_package_info (live_config "A" "1.0" 5)
    (registry_world
       [("https://registry.npmjs.org/A", no_versions_answer)]) "A" "1.0" =
  Raised (ValueError
            ("Не удалось получить информацию о пакете " ++ "A")%string).
Proof.
  assert (Hm : mode (live_config "A" "1.0" 5) <> "test")
    by (simpl; discriminate).
  split; [exact Hm|].
  apply (@resolution_error_fatal (live_config "A" "1.0" 5)
           (registry_world
              [("https://registry.npmjs.org/A", no_versions_answer)]) Hm).
  right. right. reflexivity.
Defined.

Lemma test_lookup config world test_data n v :
  mode config = "test" ->
  read_json world (repository_url config) = Some test_data ->
  get_package_info config world n v =
  Returned (match Dict.get n test_data with
            | Some info => info
            | None => empty_metadata
            end).
Proof.
  intros Hm Hf. unfold get_package_info. now rewrite Hm, Hf.
Qed.

(** C7: in test mode, with the fixture file in place, a name that is not a
    key of the fixture gets the empty metadata record, without exception; its
    dependency mapping is empty; and the call that visits it needs a single
    activation: it invokes the source, records the empty mapping and makes no
    recursive call. *)
Theorem missing_test_package config world test_data n v :
  mode config = "test" ->
  read_json world (repository_url config) = Some test_data ->
  Dict.get n test_data = None ->
  get_package_info config world n v = Returned empty_metadata /\
  deps_of empty_metadata = [] /\
  (forall st,
      get_direct_dependencies config world n v st =
      Some (with_event st (EFetch n v), Returned [])) /\
  (forall d p st,
      d <= max_depth config -> ~ In n p ->
      build_dependency_graph config world 1 n v d p st =
      Some (with_entry (with_event st (EFetch n v)) n [], Returned tt)).
Proof.
  intros Hm Hf Hn.
  assert (Hi : get_package_info config world n v = Returned empty_metadata).
  { rewrite (@test_lookup _ _ _ _ _ Hm Hf). now rewrite Hn. }
  repeat split; [exact Hi | |].
  - intros st. unfold get_direct_dependencies, bind, emit, lift, ret.
    now rewrite Hi.
  - intros d p st Hd Hp. rewrite build_step.
    destruct (Z.gtb_spec d (max_depth config)); [lia|].
    apply in_list_false in Hp. now rewrite Hp, Hi.
Qed.

Lemma missing_test_package_witness :
  mode (test_config "A" "1.0" 5) = "test" /\
  build_dependency_graph (test_config "A" "1.0" 5)
    (fixture_world "test_repo.json" diamond_fixture) 1 "Z" "1.0" 2 ["A"; "C"]
    new_analyzer =
  Some (with_entry (with_event new_analyzer (EFetch "Z" "1.0")) "Z" [],
        Returned tt).
Proof.
  split; [reflexivity|].
  apply (fun Hm Hf Hn =>
           proj2 (proj2 (proj2
             (@missing_test_package (test_config "A" "1.0" 5)
                (fixture_world "test_repo.json" diamond_fixture)
                diamond_fixture "Z" "1.0" Hm Hf Hn)))).
  - reflexivity.
  - reflexivity.
  - reflexivity.
  - simpl. lia.
  - simpl. intros [H|[H|[]]]; discriminate H.
Defined.

(** C8: the diamond fixture, root A at 1.0, [max_depth = 5]: the final graph
    is A -> {B, C}, B -> {}, C -> {B}, with keys in the order A, B, C, and
    the source is invoked for A, B and C, once each. *)
Theorem diamond_scenario fuel :
  exists st,
    main (test_config "A" "1.0" 5)
      (fixture_world "test_repo.json" diamond_fixture)
      (frames (test_config "A" "1.0" 5) 0 + fuel) = Some (st, Returned tt) /\
    dependency_graph st =
      [ ("A", [("B", "1.0"); ("C", "1.0")]);
        ("B", []);
        ("C", [("B", "1.0")]) ] /\
    Dict.keys (dependency_graph st) = ["A"; "B"; "C"] /\
    fetched (trace st) = ["A"; "B"; "C"] /\
    count_occ string_dec (fetched (trace st)) "B" = 1%nat.
Proof.
  eexists. split; [apply main_budget; vm_compute; reflexivity|].
  repeat split.
Qed.

(** C9: with [max_depth >= 0], every call of [build_dependency_graph]
    entered at depth 0 has a result, the same for every budget of at least
    [max_depth + 2] activations: the entered call and at most [max_depth + 1]
    levels below it.  The traversal without the cycle check has a result
    within the same budget. *)
Theorem traversal_terminates config world n v p st :
  0 <= max_depth config ->
  (exists r, forall fuel,
      (Z.to_nat (max_depth config) + 2 <= fuel)%nat ->
      build_dependency_graph config world fuel n v 0 p st = Some r) /\
  (forall fuel,
      (Z.to_nat (max_depth config) + 2 <= fuel)%nat ->
      exists r,
        build_without_cycle_guard config world fuel n v 0 p st = Some r).
Proof.
  intros H0.
  assert (Hf : frames config 0 = (Z.to_nat (max_depth config) + 2)%nat)
    by (unfold frames; lia).
  split.
  - destruct (build_result config world n v 0 p st) as (st' & o & _ & E).
    exists (st', o). intros fuel Hfuel. apply E. lia.
  - intros fuel Hfuel. apply build_without_cycle_guard_total.
    unfold frames in Hf. lia.
Qed.

Lemma traversal_terminates_witness :
  0 <= max_depth (test_config "A" "1.0" 1) /\
  exists r, forall fuel,
      (Z.to_nat (max_depth (test_config "A" "1.0" 1)) + 2 <= fuel)%nat ->
      build_dependency_graph (test_config "A" "1.0" 1)
        (fixture_world "test_repo.json" chain_fixture) fuel "A" "1.0" 0 []
        new_analyzer = Some r.
Proof.
  assert (H0 : 0 <= max_depth (test_config "A" "1.0" 1)) by (simpl; lia).
  split; [exact H0|].
  apply (proj1 (@traversal_terminates (test_config "A" "1.0" 1)
                  (fixture_world "test_repo.json" chain_fixture)
                  "A" "1.0" [] new_analyzer H0)).
Defined.

(** The budget of C9 is met: on the chain with [max_depth = 1] the call for
    C at depth 2 is the third activation, and two do not suffice. *)
Lemma frames_needed :
  main (test_config "A" "1.0" 1)
    (fixture_world "test_repo.json" chain_fixture) 2 = None /\
  main (test_config "A" "1.0" 1)
    (fixture_world "test_repo.json" chain_fixture) 3 <> None.
Proof. split; vm_compute; [reflexivity | discriminate]. Qed.

(** C10: in test mode, with the fixture file in place, the run of a fresh
    analyzer ends without exception, and every package the source was asked
    for that is not a key of the fixture is a key of the final graph, with the
    empty mapping; when the root itself is missing and [max_depth >= 0], the
    final graph is exactly the root with the empty mapping. *)
Theorem missing_package_recorded config world test_data :
  mode config = "test" ->
  read_json world (repository_url config) = Some test_data ->
  (exists st,
      (forall fuel,
          main config world (frames config 0 + fuel) = Some (st, Returned tt)) /\
      forall n,
        In n (fetched (trace st)) ->
        Dict.get n test_data = None ->
        Dict.get n (dependency_graph st) = Some []) /\
  (0 <= max_depth config ->
   Dict.get (package_name config) test_data = None ->
   forall fuel,
     main config world (S fuel) =
     Some ({| dependency_graph := [(package_name config, [])];
              trace := [EFetch (package_name config) (version config)] |},
           Returned tt)).
Proof.
  intros Hm Hf. split.
  - destruct (main_result config world) as (st & o & B & E).
    assert (Ho : o = Returned tt).
    { destruct (proj1 (traversal_error_last config world) _ _ _ _ _ _ _ B)
        as (new & _ & A).
      destruct o as [[]|e]; [reflexivity|].
      destruct A as (pre & n & v & _ & _ & R).
      rewrite (@test_lookup _ _ _ _ _ Hm Hf) in R. discriminate R. }
    subst o. exists st. split; [exact E|]. intros n Hin Hn.
    destruct (proj1 (traversal_fresh_growth config world) _ _ _ _ _ _ _ B)
      as (new & T & _ & _ & K); [simpl; tauto|].
    simpl in T, K. rewrite T, <- K in Hin.
    destruct (In_keys_get _ _ Hin) as [ds Hds]. rewrite Hds. f_equal.
    destruct (proj1 (traversal_justified config world) _ _ _ _ _ _ _ B _ _ Hds)
      as [Old|(v & info & Hi & ->)]; [discriminate Old|].
    rewrite (@test_lookup _ _ _ _ _ Hm Hf), Hn in Hi. now inversion Hi.
  - intros H0 Hn fuel. unfold main, run_analysis. rewrite build_step.
    destruct (Z.gtb_spec 0 (max_depth config)); [lia|].
    simpl in_list. cbv iota.
    rewrite (@test_lookup _ _ _ _ _ Hm Hf), Hn. reflexivity.
Qed.

Lemma missing_package_recorded_witness :
  mode (test_config "Z" "1.0" 5) = "test" /\
  main (test_config "Z" "1.0" 5)
    (fixture_world "test_repo.json" diamond_fixture) 1 =
  Some ({| dependency_graph := [("Z", [])];
           trace := [EFetch "Z" "1.0"] |}, Returned tt).
Proof.
  split; [reflexivity|].
  apply (fun Hm Hf =>
           proj2 (@missing_package_recorded (test_config "Z" "1.0" 5)
                    (fixture_world "test_repo.json" diamond_fixture)
                    diamond_fixture Hm Hf)).
  - reflexivity.
  - reflexivity.
  - simpl. lia.
  - reflexivity.
Defined.

(** ** Further properties of the lookup *)



Lemma live_requested_version_witness :
  mode (live_config "A" "1.0.0" 5) <> "test" /\
  get_package_info (live_config "A" "1.0.0" 5)
    (registry_world [("https://registry.npmjs.org/A", two_versions_answer)])
    "A" "1.0.0" = Returned (metadata [("C", "^1.0")]).
Proof.
  assert (Hm : mode (live_config "A" "1.0.0" 5) <> "test")
    by (simpl; discriminate).
  split; [exact Hm|].
  apply (@live_requested_version (live_config "A" "1.0.0" 5)
           (registry_world
              [("https://registry.npmjs.org/A", two_versions_answer)])
           "A" "1.0.0"
           [ ("2.0.0", metadata [("B", "^2.0")]);
             ("1.0.0", metadata [("C", "^1.0")]) ]
           (metadata [("C", "^1.0")]) Hm);
    reflexivity.
Defined.

Lemma live_first_version_witness :
  mode (live_config "A" "3.0.0" 5) <> "test" /\
  get_package_info (live_config "A" "3.0.0" 5)
    (registry_world [("https://registry.npmjs.org/A", two_versions_answer)])
    "A" "3.0.0" = Returned (metadata [("B", "^2.0")]).
Proof.
  assert (Hm : mode (live_config "A" "3.0.0" 5) <> "test")
    by (simpl; discriminate).
  split; [exact Hm|].
  apply (@live_first_version (live_config "A" "3.0.0" 5)
           (registry_world
              [("https://registry.npmjs.org/A", two_versions_answer)])
           "A" "3.0.0" "2.0.0" (metadata [("B", "^2.0")])
           [("1.0.0", metadata [("C", "^1.0")])] Hm);
    try reflexivity.
  discriminate.
Defined.

(** ** Loading the configuration *)

Lemma check_required_ok config params :
  check_required config params = Returned tt <->
  forall p, In p params -> Dict.mem p config = true.
Proof.
  induction params as [|q r IH]; simpl.
  - split; [intros _ p [] | reflexivity].
  - destruct (Dict.mem q config) eqn:K.
    + rewrite IH. split.
      * intros H p [<-|Hp]; auto.
      * intros H p Hp. apply H. now right.
    + split; [discriminate|]. intros H.
      rewrite (H q) in K by now left. discriminate K.
Qed.

Lemma check_required_first_missing config params :
  (exists p, In p params /\ Dict.mem p config = false) ->
  exists before q after,
    params = before ++ q :: after /\
    (forall p, In p before -> Dict.mem p config = true) /\
    Dict.mem q config = false /\
    check_required config params =
    Raised (ValueError ("Не хватает параметра: " ++ q)%string).
Proof.
  induction params as [|q r IH]; intros (p & Hp & Hm); [destruct Hp|].
  simpl. destruct (Dict.mem q config) eqn:K.
  - destruct IH as (before & q' & after & E & B & M & R).
    { destruct Hp as [<-|Hp]; [congruence | eauto]. }
    subst r. exists (q :: before), q', after. repeat split; auto.
    intros x [<-|Hx]; auto.
  - exists [], q, r. repeat split; auto; intros x Hx; destruct Hx.
Qed.

(** X4: [load_config] returns a configuration exactly when the file holds
    a document with all six required parameters, and then it returns that
    document as it is, additional parameters included. *)
Theorem load_config_returns read_yaml config_file config :
  load_config read_yaml config_file = Returned config <->
  (read_yaml config_file = Document config /\
   forall p, In p required -> Dict.mem p config = true).
Proof.
  unfold load_config. destruct (read_yaml config_file) as [|problem|doc].
  - split; [discriminate | intros [H _]; discriminate H].
  - split; [discriminate | intros [H _]; discriminate H].
  - destruct (check_required doc required) as [[]|e] eqn:C.
    + pose proof (proj1 (check_required_ok doc required) C) as A. split.
      * intros H. inversion H; subst. auto.
      * intros [H _]. inversion H; subst. reflexivity.
    + split; [discriminate|]. intros [H A]. inversion H; subst.
      pose proof (proj2 (check_required_ok config required) A). congruence.
Qed.

(** X5: when the document lacks required parameters, [load_config] raises
    the [ValueError] that names the first missing one in the order of the
    list of line 18. *)
Theorem load_config_first_missing read_yaml config_file config :
  read_yaml config_file = Document config ->
  (exists p, In p required /\ Dict.mem p config = false) ->
  exists before q after,
    required = before ++ q :: after /\
    (forall p, In p before -> Dict.mem p config = true) /\
    Dict.mem q config = false /\
    load_config read_yaml config_file =
    Raised (ValueError ("Не хватает параметра: " ++ q)%string).
Proof.
  intros Hd Hm. unfold load_config. rewrite Hd.
  destruct (check_required_first_missing config required Hm)
    as (before & q & after & E & B & M & R).
  exists before, q, after. rewrite R. auto.
Qed.

Lemma load_config_returns_witness :
  load_config
    (fun _ => Document [("package_name", YString "A");
                        ("repository_url", YString "test_repo.json");
                        ("mode", YString "test");
                        ("version", YString "1.0");
                        ("output_file", YString "graph.txt");
                        ("max_depth", YInteger 5);
                        ("comment", YString "kept")]) "config.yaml" =
  Returned [("package_name", YString "A");
            ("repository_url", YString "test_repo.json");
            ("mode", YString "test");
            ("version", YString "1.0");
            ("output_file", YString "graph.txt");
            ("max_depth", YInteger 5);
            ("comment", YString "kept")].
Proof.
  apply (proj2 (load_config_returns _ _ _)). split; [reflexivity|].
  intros p Hp. simpl in Hp.
  repeat (destruct Hp as [<-|Hp]; [reflexivity|]). destruct Hp.
Defined.

Lemma load_config_first_missing_witness :
  exists before q after,
    required = before ++ q :: after /\
    (forall p, In p before ->
       Dict.mem p [("package_name", YString "A");
                   ("repository_url", YString "test_repo.json");
                   ("max_depth", YInteger 5)] = true) /\
    Dict.mem q [("package_name", YString "A");
                ("repository_url", YString "test_repo.json");
                ("max_depth", YInteger 5)] = false /\
    load_config
      (fun _ => Document [("package_name", YString "A");
                          ("repository_url", YString "test_repo.json");
                          ("max_depth", YInteger 5)]) "config.yaml" =
    Raised (ValueError ("Не хватает параметра: " ++ q)%string).
Proof.
  apply (@load_config_first_missing
           (fun _ => Document [("package_name", YString "A");
                               ("repository_url", YString "test_repo.json");
                               ("max_depth", YInteger 5)])
           "config.yaml" _ eq_refl).
  exists "mode". split; [simpl; tauto | reflexivity].
Defined.

Lemma load_config_names_mode :
  load_config
    (fun _ => Document [("package_name", YString "A");
                        ("repository_url", YString "test_repo.json");
                        ("max_depth", YInteger 5)]) "config.yaml" =
  Raised (ValueError "Не хватает параметра: mode").
Proof. reflexivity. Qed.

(** ** Further invariants of the traversal *)

Lemma get_Some_In V k (v : V) d : Dict.get k d = Some v -> In k (Dict.keys d).
Proof.
  intros H. apply mem_In. unfold Dict.mem. now rewrite H.
Qed.

Lemma set_same V k (v : V) d : Dict.get k d = Some v -> Dict.set k v d = d.
Proof.
  induction d as [|[k' v'] r IH]; simpl; [discriminate|].
  destruct (String.eqb_spec k k') as [->|N].
  - intros H. inversion H. reflexivity.
  - intros H. now rewrite IH.
Qed.

Lemma In_fetched k v t : In (EFetch k v) t -> In k (fetched t).
Proof.
  induction t as [|[n u|c] t IH]; simpl; [tauto | |].
  - intros [H|H]; [inversion H; now left | right; auto].
  - intros [H|H]; [discriminate H | auto].
Qed.

Lemma fetch_unique t k v v' :
  NoDup (fetched t) -> In (EFetch k v) t -> In (EFetch k v') t -> v = v'.
Proof.
  induction t as [|[n u|c] t IH]; simpl; [tauto | |].
  - intros D H H'. inversion D as [|? ? Hn D']; subst.
    destruct H as [H|H], H' as [H'|H'].
    + congruence.
    + inversion H; subst. destruct Hn. eapply In_fetched; eauto.
    + inversion H'; subst. destruct Hn. eapply In_fetched; eauto.
    + auto.
  - intros D [H|H] [H'|H']; try discriminate. auto.
Qed.

Lemma preserved_refl st : preserved st st.
Proof. intros k ds H. exact H. Qed.

Lemma preserved_trans st st1 st' :
  preserved st st1 -> preserved st1 st' -> preserved st st'.
Proof. intros A B k ds H. auto. Qed.

Lemma preserved_fetch st e n ds :
  ~ In n (Dict.keys (dependency_graph st)) ->
  preserved st (with_entry (with_event st e) n ds).
Proof.
  intros Hn k ds' H. simpl. rewrite get_set_other; [exact H|].
  intros ->. apply Hn. eapply get_Some_In; eauto.
Qed.

Lemma edge_preserved st st' x y :
  preserved st st' ->
  edge (dependency_graph st) x y -> edge (dependency_graph st') x y.
Proof. intros P (ds & G & I). exists ds. auto. Qed.

Lemma Reach_preserved st st' root x k :
  preserved st st' ->
  Reach (dependency_graph st) root x k -> Reach (dependency_graph st') root x k.
Proof.
  intros P R. induction R as [|x y k R IH E]; [constructor|].
  eapply Reach_step; [exact IH | eapply edge_preserved; eauto].
Qed.

Lemma arrival_preserved st st' root n d :
  preserved st st' ->
  arrival (dependency_graph st) root n d ->
  arrival (dependency_graph st') root n d.
Proof.
  intros P [A|(x & k & R & E & D)]; [now left | right].
  exists x, k. repeat split; auto.
  - eapply Reach_preserved; eauto.
  - eapply edge_preserved; eauto.
Qed.

Section MoreInvariants.

Variable config : Config.
Variable world : World.

Lemma traversal_preserved :
  (forall n v d p st st' o,
      Build config world n v d p st st' o ->
      ~ In n (Dict.keys (dependency_graph st)) -> preserved st st') /\
  (forall d p deps st st' o,
      Loop config world d p deps st st' o -> preserved st st').
Proof.
  apply Build_Loop_ind; intros; try apply preserved_refl; try assumption.
  - intros k ds H'. exact H'.
  - intros k ds H'. exact H'.
  - eapply preserved_trans; [|eassumption]. now apply preserved_fetch.
  - match goal with H : _ -> preserved _ _ |- _ => apply H end.
    now apply mem_false.
  - eapply preserved_trans; [|eassumption].
    match goal with H : _ -> preserved _ _ |- _ => apply H end.
    now apply mem_false.
Qed.

Lemma looked_up_refl st : looked_up config world st st.
Proof. exists []. rewrite app_nil_r. split; [reflexivity | auto]. Qed.

Lemma looked_up_event st e : looked_up config world st (with_event st e).
Proof. exists [e]. split; [reflexivity | auto]. Qed.

Lemma looked_up_trans st st1 st' :
  looked_up config world st st1 -> looked_up config world st1 st' ->
  looked_up config world st st'.
Proof.
  intros (n1 & T1 & A1) (n2 & T2 & A2).
  exists (n1 ++ n2). rewrite app_assoc, <- T1. split; [exact T2|].
  intros k ds H. destruct (A2 k ds H) as [G|(v & info & I & R & E)].
  - destruct (A1 k ds G) as [G'|(v & info & I & R & E)]; [now left | right].
    exists v, info. repeat split; auto. apply in_or_app. now left.
  - right. exists v, info. repeat split; auto. apply in_or_app. now right.
Qed.

Lemma looked_up_fetch st n v info :
  get_package_info config world n v = Returned info ->
  looked_up config world st
    (with_entry (with_event st (EFetch n v)) n (deps_of info)).
Proof.
  intros R. exists [EFetch n v]. split; [reflexivity|].
  intros k ds H. simpl in H. destruct (string_dec k n) as [->|N].
  - rewrite get_set_same in H. inversion H; subst. right.
    exists v, info. repeat split; auto. now left.
  - rewrite get_set_other in H by assumption. now left.
Qed.

Lemma traversal_looked_up :
  (forall n v d p st st' o,
      Build config world n v d p st st' o -> looked_up config world st st') /\
  (forall d p deps st st' o,
      Loop config world d p deps st st' o -> looked_up config world st st').
Proof.
  apply Build_Loop_ind; intros; try assumption;
    try apply looked_up_refl; try apply looked_up_event.
  - eapply looked_up_trans; [apply looked_up_fetch|]; eassumption.
  - eapply looked_up_trans; eassumption.
Qed.

End MoreInvariants.

Section Reachability.

Variable config : Config.
Variable world : World.
Variable root : string.

Local Abbreviation near g k :=
  (exists m, Reach g root k m /\ Z.of_nat m <= max_depth config).

Lemma traversal_reach :
  (forall n v d p st st' o,
      Build config world n v d p st st' o ->
      ~ In n (Dict.keys (dependency_graph st)) ->
      arrival (dependency_graph st) root n d ->
      forall k, In k (Dict.keys (dependency_graph st')) ->
                In k (Dict.keys (dependency_graph st)) \/
                near (dependency_graph st') k) /\
  (forall d p deps st st' o,
      Loop config world d p deps st st' o ->
      (forall dn, In dn (Dict.keys deps) ->
                  arrival (dependency_graph st) root dn d) ->
      forall k, In k (Dict.keys (dependency_graph st')) ->
                In k (Dict.keys (dependency_graph st)) \/
                near (dependency_graph st') k).
Proof.
  apply Build_Loop_ind.
  - intros; now left.
  - intros; now left.
  - intros; now left.
  - intros n v d p st info st' o Hd _ _ HL IH Hn Ha k Hk.
    set (st1 := with_entry (with_event st (EFetch n v)) n (deps_of info)) in *.
    assert (P1 : preserved st st1) by now apply preserved_fetch.
    assert (P2 : preserved st1 st')
      by exact (proj2 (traversal_preserved config world) _ _ _ _ _ _ HL).
    assert (Rn : exists m, Reach (dependency_graph st1) root n m /\
                           Z.of_nat m = d).
    { destruct Ha as [[-> ->]|(x & j & R & E & D)].
      - exists 0%nat. split; [constructor | reflexivity].
      - exists (S j). split; [|now rewrite D].
        eapply Reach_step; [eapply Reach_preserved | eapply edge_preserved];
          eauto. }
    destruct Rn as (m & Rm & Em).
    destruct (IH) with (k := k) as [K|K]; auto.
    + intros dn Hdn. right. exists n, m. repeat split; [exact Rm | | lia].
      exists (deps_of info). split; [apply get_set_same | exact Hdn].
    + unfold st1 in K. simpl in K. rewrite keys_set_new in K by assumption.
      apply in_app_or in K. destruct K as [K|[<-|[]]]; [now left | right].
      exists m. split; [eapply Reach_preserved; eauto | lia].
  - intros; now left.
  - intros d p dn dv r st st' o _ _ IH Ha k Hk.
    apply IH; [|exact Hk]. intros x Hx. apply Ha. now right.
  - intros d p dn dv r st st' e K _ IH Ha k Hk.
    apply IH; [now apply mem_false | apply Ha; now left | exact Hk].
  - intros d p dn dv r st st1 st' o K HB IH1 HL IH2 Ha k Hk.
    apply mem_false in K.
    assert (P1 : preserved st st1)
      by exact (proj1 (traversal_preserved config world) _ _ _ _ _ _ _ HB K).
    assert (P2 : preserved st1 st')
      by exact (proj2 (traversal_preserved config world) _ _ _ _ _ _ HL).
    destruct (IH2) with (k := k) as [K1|K1]; auto.
    + intros x Hx. eapply arrival_preserved; [exact P1|]. apply Ha. now right.
    + destruct (IH1 K (Ha dn (or_introl eq_refl)) k K1) as [K0|(m & R & B)];
        [now left | right].
      exists m. split; [eapply Reach_preserved; eauto | exact B].
Qed.

End Reachability.

Section Revisit.

Variable config : Config.
Variable world : World.

Lemma traversal_records_children :
  (forall n v d p st st' o,
      Build config world n v d p st st' o ->
      d <= max_depth config ->
      ~ In n (Dict.keys (dependency_graph st)) ->
      incl p (Dict.keys (dependency_graph st)) ->
      o = Returned tt ->
      In n (Dict.keys (dependency_graph st'))) /\
  (forall d p deps st st' o,
      Loop config world d p deps st st' o ->
      d <= max_depth config ->
      incl p (Dict.keys (dependency_graph st)) ->
      o = Returned tt ->
      forall dn, In dn (Dict.keys deps) ->
                 In dn (Dict.keys (dependency_graph st'))).
Proof.
  apply Build_Loop_ind.
  - intros. lia.
  - intros n v d p st _ Hin _ Hn Hp _. destruct Hn. now apply Hp.
  - intros. discriminate.
  - intros n v d p st info st' o _ _ _ HL _ _ Hn Hp _.
    assert (Q : quiet (with_entry (with_event st (EFetch n v)) n (deps_of info))
                      st').
    { apply (proj2 (traversal_quiet config world) _ _ _ _ _ _ HL).
      simpl. rewrite keys_set_new by assumption.
      apply incl_app; [now apply incl_appl | apply incl_appr, incl_refl]. }
    apply Q. simpl. rewrite keys_set_new by assumption.
    apply in_or_app. right. now left.
  - intros d p st _ _ _ dn [].
  - intros d p dn dv r st st' o K HL IH Hd Hp Ho x [<-|Hx].
    + apply (proj2 (traversal_quiet config world) _ _ _ _ _ _ HL Hp).
      now apply mem_In.
    + now apply IH.
  - intros. discriminate.
  - intros d p dn dv r st st1 st' o K HB IH1 HL IH2 Hd Hp Ho x Hx.
    apply mem_false in K.
    assert (Q1 : quiet st st1)
      by exact (proj1 (traversal_quiet config world) _ _ _ _ _ _ _ HB K Hp).
    assert (Hp1 : incl p (Dict.keys (dependency_graph st1)))
      by (eapply incl_tran; [exact Hp | apply Q1]).
    destruct Hx as [<-|Hx].
    + apply (proj2 (traversal_quiet config world) _ _ _ _ _ _ HL Hp1).
      now apply IH1.
    + now apply IH2.
Qed.

Lemma loop_all_known (call : string -> string -> M unit) :
  forall deps st,
    (forall dn, In dn (Dict.keys deps) ->
                In dn (Dict.keys (dependency_graph st))) ->
    for_each (unless_known call) deps st = Some (st, Returned tt).
Proof.
  induction deps as [|[dn dv] r IH]; intros st H; [reflexivity|].
  rewrite loop_step.
  assert (K : Dict.mem dn (dependency_graph st) = true)
    by (apply mem_In, H; now left).
  rewrite K. apply IH. intros x Hx. apply H. now right.
Qed.

End Revisit.

(** ** Further properties of a run *)

(** X6: in test mode without the fixture file, the first call that gets
    past both checks invokes the source and ends with [FileNotFoundError];
    nothing is recorded.  With [max_depth >= 0] this is the root call, so the
    run ends there with an empty graph. *)
Theorem fixture_file_missing config world :
  mode config = "test" ->
  read_json world (repository_url config) = None ->
  (forall fuel n v d p st,
      d <= max_depth config -> ~ In n p ->
      build_dependency_graph config world (S fuel) n v d p st =
      Some (with_event st (EFetch n v),
            Raised (FileNotFoundError no_test_file))) /\
  (0 <= max_depth config ->
   forall fuel,
     main config world (S fuel) =
     Some ({| dependency_graph := [];
              trace := [EFetch (package_name config) (version config)] |},
           Raised (FileNotFoundError no_test_file))).
Proof.
  intros Hm Hf.
  assert (R : forall n v, get_package_info config world n v =
                          Raised (FileNotFoundError no_test_file)).
  { intros. unfold get_package_info. now rewrite Hm, Hf. }
  assert (G : forall fuel n v d p st,
             d <= max_depth config -> ~ In n p ->
             build_dependency_graph config world (S fuel) n v d p st =
             Some (with_event st (EFetch n v),
                   Raised (FileNotFoundError no_test_file))).
  { intros fuel n v d p st Hd Hp. rewrite build_step.
    destruct (Z.gtb_spec d (max_depth config)); [lia|].
    apply in_list_false in Hp. now rewrite Hp, R. }
  split; [exact G|]. intros H0 fuel. unfold main, run_analysis.
  rewrite G; [reflexivity | exact H0 | simpl; tauto].
Qed.

Lemma fixture_file_missing_witness :
  mode (test_config "A" "1.0" 5) = "test" /\
  main (test_config "A" "1.0" 5) (registry_world []) 1 =
  Some ({| dependency_graph := []; trace := [EFetch "A" "1.0"] |},
        Raised (FileNotFoundError no_test_file)).
Proof.
  split; [reflexivity|].
  apply (fun Hm Hf =>
           proj2 (@fixture_file_missing (test_config "A" "1.0" 5)
                    (registry_world []) Hm Hf)).
  - reflexivity.
  - reflexivity.
  - simpl. lia.
Defined.

(** X7: the keys of the final graph are pairwise distinct and stand in the
    order in which the source was invoked: after a run that ends normally
    they are exactly the invoked names; after a run that raises they are the
    invoked names without the last one. *)
Theorem graph_in_lookup_order config world :
  exists st o,
    (forall fuel, main config world (frames config 0 + fuel) = Some (st, o)) /\
    NoDup (Dict.keys (dependency_graph st)) /\
    match o with
    | Returned _ => Dict.keys (dependency_graph st) = fetched (trace st)
    | Raised _ =>
        exists x,
          fetched (trace st) = Dict.keys (dependency_graph st) ++ [x]
    end.
Proof.
  destruct (main_result config world) as (st & o & B & E).
  exists st, o. split; [exact E|].
  destruct (proj1 (traversal_fresh_growth config world) _ _ _ _ _ _ _ B)
    as (new & T & D & _ & K); [simpl; tauto|].
  simpl in T, K. subst new. destruct o as [u|e].
  - rewrite K. auto.
  - destruct K as (ns & x & Ef & K). rewrite K, Ef in *. split; [|eauto].
    apply NoDup_remove_1 in D. now rewrite app_nil_r in D.
Qed.

(** X8: an exception that ends a run is the exception of the last
    invocation of the source, and every invocation before it answered; in a
    run that ends normally every invocation answered. *)
Theorem exception_of_last_lookup config world :
  exists st o,
    (forall fuel, main config world (frames config 0 + fuel) = Some (st, o)) /\
    match o with
    | Returned _ => Forall (answered config world) (trace st)
    | Raised e =>
        exists pre n v,
          trace st = pre ++ [EFetch n v] /\
          Forall (answered config world) pre /\
          get_package_info config world n v = Raised e
    end.
Proof.
  destruct (main_result config world) as (st & o & B & E).
  exists st, o. split; [exact E|].
  destruct (proj1 (traversal_error_last config world) _ _ _ _ _ _ _ B)
    as (new & T & A).
  simpl in T. now subst new.
Qed.

(** X9: the final graph of a run holds exactly the answers of the source:
    a package is recorded with a mapping if and only if the source was
    invoked for it, answered, and the mapping is the dependencies of that
    answer. *)
Theorem graph_records_answers config world :
  exists st o,
    (forall fuel, main config world (frames config 0 + fuel) = Some (st, o)) /\
    forall k ds,
      Dict.get k (dependency_graph st) = Some ds <->
      exists v info,
        In (EFetch k v) (trace st) /\
        get_package_info config world k v = Returned info /\
        ds = deps_of info.
Proof.
  destruct (main_result config world) as (st & o & B & E).
  exists st, o. split; [exact E|].
  destruct (proj1 (traversal_looked_up config world) _ _ _ _ _ _ _ B)
    as (new & T & L).
  simpl in T. subst new.
  assert (Fwd : forall k ds,
             Dict.get k (dependency_graph st) = Some ds ->
             exists v info,
               In (EFetch k v) (trace st) /\
               get_package_info config world k v = Returned info /\
               ds = deps_of info).
  { intros k ds H. destruct (L k ds H) as [Old|New]; [discriminate Old | exact New]. }
  intros k ds. split; [apply Fwd|].
  intros (v & info & Hin & Hr & ->).
  destruct (proj1 (traversal_fresh_growth config world) _ _ _ _ _ _ _ B)
    as (new & T & D & _ & K); [simpl; tauto|].
  simpl in T, K. subst new.
  assert (Hk : In k (Dict.keys (dependency_graph st))).
  { destruct o as [u|e].
    - rewrite K. eapply In_fetched; eauto.
    - destruct K as (ns & x & Ef & K).
      destruct (proj1 (traversal_error_last config world) _ _ _ _ _ _ _ B)
        as (new & T & pre & n' & v' & Et & _ & Hr').
      simpl in T. subst new. rewrite Et in Hin, Ef.
      rewrite fetched_app in Ef. simpl in Ef.
      apply app_inj_tail in Ef. destruct Ef as [<- <-]. rewrite K.
      apply in_app_or in Hin. destruct Hin as [Hin|[Hin|[]]].
      + eapply In_fetched; eauto.
      + inversion Hin; subst. congruence. }
  destruct (In_keys_get _ _ Hk) as [ds' Hds'].
  destruct (Fwd k ds' Hds') as (v' & info' & Hin' & Hr' & ->).
  rewrite (fetch_unique _ _ _ _ D Hin Hin') in Hr. congruence.
Qed.

(** X10: every package recorded by a run is reachable from the root by at
    most [max_depth] edges of the final graph, an edge going from a recorded
    package to a name in its recorded dependencies. *)
Theorem recorded_within_max_depth config world :
  exists st o,
    (forall fuel, main config world (frames config 0 + fuel) = Some (st, o)) /\
    forall k,
      In k (Dict.keys (dependency_graph st)) ->
      exists m,
        Reach (dependency_graph st) (package_name config) k m /\
        Z.of_nat m <= max_depth config.
Proof.
  destruct (main_result config world) as (st & o & B & E).
  exists st, o. split; [exact E|]. intros k Hk.
  destruct (proj1 (traversal_reach config world (package_name config))
              _ _ _ _ _ _ _ B) with (k := k) as [[]|R]; auto.
  left. auto.
Qed.

(** X11: a call for a name that is not yet a key leaves every entry the
    graph already had as it was, also when the source would now answer
    otherwise for that package: the first visit decides. *)
Theorem entries_preserved config world n v d p st :
  ~ In n (Dict.keys (dependency_graph st)) ->
  exists st' o,
    (forall fuel, (frames config d <= fuel)%nat ->
       build_dependency_graph config world fuel n v d p st = Some (st', o)) /\
    forall k ds,
      Dict.get k (dependency_graph st) = Some ds ->
      Dict.get k (dependency_graph st') = Some ds.
Proof.
  intros Hn.
  destruct (build_result config world n v d p st) as (st' & o & B & E).
  exists st', o. split; [exact E|].
  exact (proj1 (traversal_preserved config world) _ _ _ _ _ _ _ B Hn).
Qed.

Lemma entries_preserved_witness :
  ~ In "A" (Dict.keys [("B", [("X", "9.9")])]) /\
  exists st' o,
    (forall fuel, (frames (test_config "A" "1.0" 5) 0 <= fuel)%nat ->
       build_dependency_graph (test_config "A" "1.0" 5)
         (fixture_world "test_repo.json" diamond_fixture) fuel "A" "1.0" 0 []
         {| dependency_graph := [("B", [("X", "9.9")])]; trace := [] |} =
       Some (st', o)) /\
    forall k ds,
      Dict.get k [("B", [("X", "9.9")])] = Some ds ->
      Dict.get k (dependency_graph st') = Some ds.
Proof.
  assert (Hn : ~ In "A" (Dict.keys [("B", [("X", "9.9")])])).
  { simpl. intros [H|[]]. discriminate H. }
  split; [exact Hn|].
  apply (@entries_preserved (test_config "A" "1.0" 5)
           (fixture_world "test_repo.json" diamond_fixture) "A" "1.0" 0 []
           {| dependency_graph := [("B", [("X", "9.9")])]; trace := [] |} Hn).
Defined.

(** X12: no run of a fresh analyzer prints a cycle report, whatever the
    registry: the names of the path are keys of the graph, and the loop only
    descends into names that are not. *)
Theorem run_never_reports_cycle config world :
  exists st o,
    (forall fuel, main config world (frames config 0 + fuel) = Some (st, o)) /\
    cycle_reports (trace st) = [].
Proof.
  destruct (main_result config world) as (st & o & B & E).
  exists st, o. split; [exact E|].
  apply (proj1 (traversal_quiet config world)) in B.
  - apply B.
  - simpl. tauto.
  - apply incl_nil_l.
Qed.

Lemma cycle_guard_witness :
  1 <= max_depth (test_config "A" "1.0" 5) /\
  build_dependency_graph (test_config "A" "1.0" 5)
    (fixture_world "test_repo.json" cyclic_fixture) 1 "A" "1.0" 1 ["A"; "B"]
    new_analyzer =
  Some (with_event new_analyzer (ECycle ["A"; "B"; "A"]), Returned tt).
Proof.
  assert (Hd : 1 <= max_depth (test_config "A" "1.0" 5)) by (simpl; lia).
  split; [exact Hd|].
  apply (@cycle_guard (test_config "A" "1.0" 5)
           (fixture_world "test_repo.json" cyclic_fixture) 0%nat "A" "1.0" 1
           ["A"; "B"] new_analyzer Hd).
  simpl. tauto.
Defined.

Section TestMode.

Variable config : Config.
Variable world : World.
Hypothesis test_mode : mode config = "test".

Lemma test_lookup_any_version n v v' :
  get_package_info config world n v = get_package_info config world n v'.
Proof. unfold get_package_info. now rewrite test_mode. Qed.

Lemma loop_same_graph (f g : string -> string -> M unit)
  (Hfg : forall n v st1 st2 s1 o,
      dependency_graph st1 = dependency_graph st2 ->
      f n v st1 = Some (s1, o) ->
      exists s2, g n v st2 = Some (s2, o) /\
                 dependency_graph s1 = dependency_graph s2) :
  forall deps st1 st2 s1 o,
    dependency_graph st1 = dependency_graph st2 ->
    for_each (unless_known f) deps st1 = Some (s1, o) ->
    exists s2, for_each (unless_known g) deps st2 = Some (s2, o) /\
               dependency_graph s1 = dependency_graph s2.
Proof.
  induction deps as [|[dn dv] r IH]; intros st1 st2 s1 o Hg H.
  - inversion H; subst. exists st2. split; [reflexivity | exact Hg].
  - rewrite loop_step in *. rewrite <- Hg.
    destruct (Dict.mem dn (dependency_graph st1)); [eapply IH; eauto|].
    destruct (f dn dv st1) as [[t1 [u|e]]|] eqn:F; try discriminate.
    + destruct (Hfg _ _ _ _ _ _ Hg F) as (t2 & -> & Ht). eapply IH; eauto.
    + inversion H; subst.
      destruct (Hfg _ _ _ _ _ _ Hg F) as (t2 & -> & Ht). eauto.
Qed.

Lemma build_same_graph fuel :
  forall n v v' d p st1 st2 s1 o,
    dependency_graph st1 = dependency_graph st2 ->
    build_dependency_graph config world fuel n v d p st1 = Some (s1, o) ->
    exists s2,
      build_dependency_graph config world fuel n v' d p st2 = Some (s2, o) /\
      dependency_graph s1 = dependency_graph s2.
Proof.
  induction fuel as [|fuel IH]; intros n v v' d p st1 st2 s1 o Hg H;
    [discriminate|].
  rewrite build_step in *.
  destruct (d >? max_depth config).
  { inversion H; subst. eauto. }
  destruct (in_list n p).
  { inversion H; subst. eexists. split; [reflexivity | exact Hg]. }
  rewrite (test_lookup_any_version n v' v).
  destruct (get_package_info config world n v) as [info|e].
  - revert H. apply loop_same_graph.
    + intros. eapply IH; eauto.
    + simpl. now rewrite Hg.
  - inversion H; subst. eexists. split; [reflexivity | exact Hg].
Qed.

End TestMode.

(** X14: in test mode the requested version plays no role: for the same
    name, depth, path and state, two calls that differ in the version end
    with the same outcome and the same graph. *)
Theorem test_mode_ignores_version config world n v v' d p st :
  mode config = "test" ->
  exists s1 s2 o,
    (forall fuel, (frames config d <= fuel)%nat ->
       build_dependency_graph config world fuel n v d p st = Some (s1, o)) /\
    (forall fuel, (frames config d <= fuel)%nat ->
       build_dependency_graph config world fuel n v' d p st = Some (s2, o)) /\
    dependency_graph s1 = dependency_graph s2.
Proof.
  intros Hm.
  destruct (build_result config world n v d p st) as (s1 & o & _ & E).
  destruct (@build_same_graph config world Hm (frames config d)
              n v v' d p st st s1 o eq_refl (E _ (le_n _)))
    as (s2 & E2 & Hg).
  exists s1, s2, o. repeat split; [exact E | | exact Hg].
  intros fuel Hf. eapply build_mono; eauto.
Qed.

Lemma test_mode_ignores_version_witness :
  mode (test_config "A" "1.0" 5) = "test" /\
  exists s1 s2 o,
    (forall fuel, (frames (test_config "A" "1.0" 5) 0 <= fuel)%nat ->
       build_dependency_graph (test_config "A" "1.0" 5)
         (fixture_world "test_repo.json" diamond_fixture) fuel "A" "1.0" 0 []
         new_analyzer = Some (s1, o)) /\
    (forall fuel, (frames (test_config "A" "1.0" 5) 0 <= fuel)%nat ->
       build_dependency_graph (test_config "A" "1.0" 5)
         (fixture_world "test_repo.json" diamond_fixture) fuel "A" "7.7" 0 []
         new_analyzer = Some (s2, o)) /\
    dependency_graph s1 = dependency_graph s2.
Proof.
  split; [reflexivity|].
  apply (@test_mode_ignores_version (test_config "A" "1.0" 5)
           (fixture_world "test_repo.json" diamond_fixture)
           "A" "1.0" "7.7" 0 [] new_analyzer).
  reflexivity.
Defined.

(** X15: after a run that ended normally, with [max_depth >= 0], a second
    [run_analysis] on the same analyzer invokes the source once, for the
    root, and leaves the graph as it is: the root's entry is rewritten with
    the same mapping and every dependency of the root is skipped or cut. *)
Theorem second_run_idle config world fuel st :
  0 <= max_depth config ->
  main config world fuel = Some (st, Returned tt) ->
  forall fuel',
    run_analysis config world (S (S fuel')) st =
    Some (with_event st (EFetch (package_name config) (version config)),
          Returned tt).
Proof.
  intros H0 H fuel'. apply build_sound in H.
  inversion H as [ | | | n v d p s info s' o Hd Hp Hi HL ]; subst;
    [lia | contradiction |].
  set (root := package_name config) in *.
  set (st1 := with_entry (with_event new_analyzer (EFetch root (version config)))
                root (deps_of info)) in *.
  assert (Hroot : Dict.get root (dependency_graph st) = Some (deps_of info)).
  { apply (proj2 (traversal_preserved config world) _ _ _ _ _ _ HL).
    apply get_set_same. }
  unfold run_analysis. fold root. rewrite build_step.
  destruct (Z.gtb_spec 0 (max_depth config)); [lia|].
  simpl in_list. cbv iota. rewrite Hi.
  unfold with_entry. simpl dependency_graph. simpl trace.
  rewrite (set_same _ _ Hroot).
  change {| dependency_graph := dependency_graph st;
            trace := trace st ++ [EFetch root (version config)] |}
    with (with_event st (EFetch root (version config))).
  destruct (Z.eq_dec (max_depth config) 0) as [Z0|Z0].
  - replace (0 + 1) with (max_depth config + 1) by lia.
    apply children_cut_off.
  - apply loop_all_known. intros dn Hdn. simpl.
    apply (proj2 (traversal_records_children config world) _ _ _ _ _ _ HL);
      auto; [lia|].
    simpl. intros x [<-|[]]. now left.
Qed.

Lemma second_run_idle_witness :
  0 <= max_depth (test_config "A" "1.0" 5) /\
  run_analysis (test_config "A" "1.0" 5)
    (fixture_world "test_repo.json" diamond_fixture) 2
    {| dependency_graph :=
         [ ("A", [("B", "1.0"); ("C", "1.0")]);
           ("B", []);
           ("C", [("B", "1.0")]) ];
       trace := [EFetch "A" "1.0"; EFetch "B" "1.0"; EFetch "C" "1.0"] |} =
  Some (with_event
          {| dependency_graph :=
               [ ("A", [("B", "1.0"); ("C", "1.0")]);
                 ("B", []);
                 ("C", [("B", "1.0")]) ];
             trace := [EFetch "A" "1.0"; EFetch "B" "1.0"; EFetch "C" "1.0"] |}
          (EFetch "A" "1.0"), Returned tt).
Proof.
  assert (H0 : 0 <= max_depth (test_config "A" "1.0" 5)) by (simpl; lia).
  split; [exact H0|].
  apply (@second_run_idle (test_config "A" "1.0" 5)
           (fixture_world "test_repo.json" diamond_fixture) 7%nat _ H0).
  vm_compute. reflexivity.
Defined.

(** X16: the converse of X10 fails.  With [max_depth = 2] and the registry
    A -> B, C;  B -> C;  C -> D, the package D lies two edges from the root
    in the final graph and yet is not recorded: C is first visited at depth
    2 below B, where its child D is cut, and is skipped as known when the
    root's loop comes to it at depth 1. *)
Theorem near_package_missed :
  exists st,
    (forall fuel,
        main (test_config "A" "1.0" 2)
          (fixture_world "test_repo.json" shortcut_fixture)
          (frames (test_config "A" "1.0" 2) 0 + fuel) =
        Some (st, Returned tt)) /\
    Dict.keys (dependency_graph st) = ["A"; "B"; "C"] /\
    Reach (dependency_graph st) "A" "D" 2 /\
    2 <= max_depth (test_config "A" "1.0" 2) /\
    ~ In "D" (Dict.keys (dependency_graph st)).
Proof.
  eexists. split; [intros fuel; apply main_budget; vm_compute; reflexivity|].
  simpl. repeat split.
  - apply Reach_step with (x := "C").
    + apply Reach_step with (x := "A"); [constructor|].
      eexists. split; [reflexivity | simpl; tauto].
    + eexists. split; [reflexivity | simpl; tauto].
  - lia.
  - intros [H|[H|[H|[]]]]; discriminate H.
Qed.
